(** * The streaming chat hook of the computer-use demo front-end

    A shallow embedding of [frontend/src/hooks/useChat.ts] (with the data
    shapes of [frontend/src/types.ts]) and the properties of its
    event-to-state reducer: the shape-based event decoder, the partial-line
    buffer, the transcript, the conversation history and the life cycle of
    one streaming request.

    Conventions.
    - A JavaScript string is the list of its UTF-16 code units.
    - A JavaScript value that may be [undefined] is an [option]; [None] is
      [undefined].
    - React state setters are applied in program order, and the closure
      variable [chatHistory] read by [sendMessage] is the current state
      (the callback is re-created whenever [chatHistory] changes).
    - Platform services that are not code of the repository — [JSON.parse],
      [TextDecoder], the clock and the random source — are the fields of the
      class [Runtime]; every statement holds for all of them. *)

From Stdlib Require Import List String Ascii Bool NArith ZArith Lia.
From Stdlib Require Import Floats DecimalString.
Import ListNotations.

Set Warnings "-register-all".
Set Implicit Arguments.

(** ** JavaScript strings *)

Definition char16 := N.
Definition jsstring := list char16.

(** An ASCII literal of the source as a list of code units. *)
Definition lit (s : string) : jsstring :=
  map N_of_ascii (list_ascii_of_string s).

Fixpoint eqb_jsstring (a b : jsstring) : bool :=
  match a, b with
  | [], [] => true
  | x :: a', y :: b' => N.eqb x y && eqb_jsstring a' b'
  | _, _ => false
  end.

(** [s.startsWith(p)] *)
Fixpoint startsWith (p s : jsstring) : bool :=
  match p, s with
  | [], _ => true
  | x :: p', y :: s' => N.eqb x y && startsWith p' s'
  | _ :: _, [] => false
  end.

(** [s.slice(n)] for a non-negative [n]. *)
Definition slice (n : nat) (s : jsstring) : jsstring := skipn n s.

(** The code units [String.prototype.trim] strips: ECMAScript WhiteSpace and
    LineTerminator. *)
Definition is_js_space (c : char16) : bool :=
  ((9 <=? c) && (c <=? 13) || (c =? 32) || (c =? 160) || (c =? 5760)
   || (8192 <=? c) && (c <=? 8202) || (c =? 8232) || (c =? 8233)
   || (c =? 8239) || (c =? 8287) || (c =? 12288) || (c =? 65279))%N.

Fixpoint trimStart (s : jsstring) : jsstring :=
  match s with
  | c :: s' => if is_js_space c then trimStart s' else s
  | [] => []
  end.

Definition trim (s : jsstring) : jsstring :=
  rev (trimStart (rev (trimStart s))).

Definition newline : char16 := 10%N.

(** [s.split('\n')]: never empty; the last element is what follows the last
    newline. *)
Fixpoint split_newline (s : jsstring) : list jsstring :=
  match s with
  | [] => [[]]
  | c :: s' =>
      if N.eqb c newline then [] :: split_newline s'
      else match split_newline s' with
           | l :: ls => (c :: l) :: ls
           | [] => [[c]]
           end
  end.

(** Decimal rendering of a non-negative integer, as in a template literal. *)
Definition decimal (n : N) : jsstring :=
  lit (NilEmpty.string_of_uint (N.to_uint n)).

(** ** JSON values, as [JSON.parse] returns them *)

Inductive json : Type :=
| JNull
| JBool (b : bool)
| JNum (n : float)
| JStr (s : jsstring)
| JArr (items : list json)
| JObj (fields : list (jsstring * json)).

(** A value that may be [undefined]. *)
Definition jsvalue := option json.

(** Own-property lookup.  [JSON.parse] keeps one entry per key, so the first
    match is the entry. *)
Fixpoint lookup (k : jsstring) (fields : list (jsstring * json)) : jsvalue :=
  match fields with
  | [] => None
  | (k', v) :: rest => if eqb_jsstring k k' then Some v else lookup k rest
  end.

(** [v.k] on a value on which property access cannot throw. *)
Definition get_property (k : jsstring) (v : json) : jsvalue :=
  match v with
  | JObj fields => lookup k fields
  | _ => None
  end.

Definition is_some {A} (o : option A) : bool :=
  match o with Some _ => true | None => false end.

(** ** Exceptions *)

Record JsError := { name : jsstring; message : jsstring }.

(** [new Error(m)] *)
Definition Error (m : jsstring) : JsError :=
  {| name := lit "Error"; message := m |}.

(** The fault of [k in v] on a primitive [v].  Its text depends on the
    engine; no handler of the hook reads it. *)
Definition TypeError_in : JsError :=
  {| name := lit "TypeError";
     message := lit "right-hand side of 'in' is not an object" |}.

(** The fault of spreading a value that is not iterable. *)
Definition TypeError_spread : JsError :=
  {| name := lit "TypeError"; message := lit "chatHistory is not iterable" |}.

Inductive completion (A : Type) : Type :=
| Normal (a : A)
| Throw (e : JsError).
Arguments Throw {A} e.

Definition cbind {A B} (c : completion A) (k : A -> completion B)
  : completion B :=
  match c with
  | Normal a => k a
  | Throw e => Throw e
  end.

(** [k in v] for the property names the decoder tests ([text], [thinking],
    [name], [input], [tool_id], [request], [method], [error], [type],
    [messages]).  None of them is a property of [Object.prototype] or of an
    array, so on an object the answer is own-key membership and on an array
    it is [false]; on a primitive, [null] included, [in] throws. *)
Definition has_property (k : jsstring) (v : json) : completion bool :=
  match v with
  | JObj fields => Normal (is_some (lookup k fields))
  | JArr _ => Normal false
  | JNull | JBool _ | JNum _ | JStr _ => Throw TypeError_in
  end.

(** [a && b] with [b] evaluated only when [a] is true. *)
Definition and_then (a : completion bool) (b : completion bool)
  : completion bool :=
  cbind a (fun x => if x then b else Normal false).

(** ** The event decoder (useChat.ts, the conditions of lines 128-163) *)

(** [SSEEventType] of types.ts. *)
Inductive SSEEventType :=
| ev_message | ev_thinking | ev_tool_use | ev_tool_result
| ev_http_log | ev_error | ev_done.

(** [parsed.type === 'text'] *)
Definition type_is_text (parsed : json) : bool :=
  match get_property (lit "type") parsed with
  | Some (JStr s) => eqb_jsstring s (lit "text")
  | _ => false
  end.

(** ['method' in parsed.request], reached only when [request] is present. *)
Definition method_in_request (parsed : json) : completion bool :=
  match get_property (lit "request") parsed with
  | Some r => has_property (lit "method") r
  | None => Throw TypeError_in
  end.

(** The chain of conditions; [None] when no branch is taken. *)
Definition classify (parsed : json) : completion (option SSEEventType) :=
  cbind (and_then (has_property (lit "text") parsed)
                  (Normal (type_is_text parsed))) (fun c1 =>
  if c1 then Normal (Some ev_message) else
  cbind (has_property (lit "thinking") parsed) (fun c2 =>
  if c2 then Normal (Some ev_thinking) else
  cbind (and_then (has_property (lit "name") parsed)
                  (has_property (lit "input") parsed)) (fun c3 =>
  if c3 then Normal (Some ev_tool_use) else
  cbind (has_property (lit "tool_id") parsed) (fun c4 =>
  if c4 then Normal (Some ev_tool_result) else
  cbind (and_then (has_property (lit "request") parsed)
                  (method_in_request parsed)) (fun c5 =>
  if c5 then Normal (Some ev_http_log) else
  cbind (and_then (has_property (lit "error") parsed)
                  (has_property (lit "type") parsed)) (fun c6 =>
  if c6 then Normal (Some ev_error) else
  cbind (has_property (lit "messages") parsed) (fun c7 =>
  if c7 then Normal (Some ev_done) else
  Normal None))))))).

(** ** Data shapes (types.ts) *)

Inductive Provider := anthropic | bedrock | vertex.

Record AppConfig := {
  provider : Provider;
  apiKey : jsstring;
  model : jsstring;
  systemPromptSuffix : jsstring;
  onlyNMostRecentImages : float;
  maxTokens : float;
  toolVersion : jsstring;
  thinkingEnabled : bool;
  thinkingBudget : float;
  hideImages : bool;
  tokenEfficientToolsBeta : bool
}.

(** [ChatRequest]: the object handed to [JSON.stringify].  A property whose
    value is [undefined] ([None]) is left out of the serialised body. *)
Record ChatRequest := {
  rq_messages : list json;
  rq_model : jsstring;
  rq_provider : Provider;
  rq_api_key : option jsstring;
  rq_system_prompt_suffix : jsstring;
  rq_only_n_most_recent_images : float;
  rq_max_tokens : float;
  rq_tool_version : jsstring;
  rq_thinking_budget : option float;
  rq_token_efficient_tools_beta : bool
}.

Inductive Role := user | assistant | tool.

(** [DisplayContent].  The decoder copies fields of the parsed object without
    checking their types, so every field holds an arbitrary value. *)
Inductive DisplayContent :=
| Text (text : jsvalue)
| Thinking (thinking : jsvalue)
| ToolUse (id name input : jsvalue)
| ToolResult (toolId output error base64Image : jsvalue)
| ErrorContent (error : jsvalue).

Record DisplayMessage := {
  dm_id : jsstring;
  dm_role : Role;
  dm_content : DisplayContent;
  dm_timestamp : Z
}.

Record HttpLogEntry := {
  log_id : jsstring;
  log_timestamp : Z;
  log_request : jsvalue;
  log_response : jsvalue;
  log_error : jsvalue
}.

(** An [AbortController]; [abort()] sets the flag of its signal. *)
Record AbortController := { aborted : bool }.

(** The arguments of one [fetch] call (lines 76-94).  Its [signal] is the
    signal of the controller held in [abortControllerRef]. *)
Record FetchRequest := {
  url : jsstring;
  method : jsstring;
  content_type : jsstring;
  body : ChatRequest
}.

(** ** Platform services *)

Class Runtime := {
  (** [JSON.parse]; [None] when it throws a [SyntaxError]. *)
  JSON_parse : jsstring -> option json;
  (** [TextDecoder] in streaming mode: a state and its reaction to one byte,
      the code units it emits. *)
  decoder_state : Type;
  decoder_start : decoder_state;
  decoder_byte : decoder_state -> Byte.byte -> decoder_state * jsstring;
  (** The identifier built from [Date.now()] and [Math.random()] at an
      instant, and the wall clock at that instant. *)
  fresh_id : nat -> jsstring;
  Date_now : nat -> Z
}.

(** The fault of [JSON.parse]; the handler of line 168 binds no parameter. *)
Definition SyntaxError : JsError :=
  {| name := lit "SyntaxError"; message := lit "invalid JSON" |}.

(** ** State of the hook and of its environment *)

Record State := {
  displayMessages : list DisplayMessage;
  chatHistory : jsvalue;
  httpLogs : list HttpLogEntry;
  isStreaming : bool;
  abortControllerRef : option AbortController;
  (** payloads reported through [console.error] *)
  console : list jsstring;
  (** the [fetch] calls issued so far *)
  fetches : list FetchRequest;
  (** instants elapsed: advanced by every stamp and every resumed [await] *)
  clock : nat
}.

Definition initial_state : State :=
  {| displayMessages := []; chatHistory := Some (JArr []); httpLogs := [];
     isStreaming := false; abortControllerRef := None;
     console := []; fetches := []; clock := 0 |}.

Definition with_displayMessages (v : list DisplayMessage) (s : State) :=
  {| displayMessages := v; chatHistory := chatHistory s;
     httpLogs := httpLogs s; isStreaming := isStreaming s;
     abortControllerRef := abortControllerRef s; console := console s;
     fetches := fetches s; clock := clock s |}.

Definition with_chatHistory (v : jsvalue) (s : State) :=
  {| displayMessages := displayMessages s; chatHistory := v;
     httpLogs := httpLogs s; isStreaming := isStreaming s;
     abortControllerRef := abortControllerRef s; console := console s;
     fetches := fetches s; clock := clock s |}.

Definition with_httpLogs (v : list HttpLogEntry) (s : State) :=
  {| displayMessages := displayMessages s; chatHistory := chatHistory s;
     httpLogs := v; isStreaming := isStreaming s;
     abortControllerRef := abortControllerRef s; console := console s;
     fetches := fetches s; clock := clock s |}.

Definition with_isStreaming (v : bool) (s : State) :=
  {| displayMessages := displayMessages s; chatHistory := chatHistory s;
     httpLogs := httpLogs s; isStreaming := v;
     abortControllerRef := abortControllerRef s; console := console s;
     fetches := fetches s; clock := clock s |}.

Definition with_abortControllerRef (v : option AbortController) (s : State) :=
  {| displayMessages := displayMessages s; chatHistory := chatHistory s;
     httpLogs := httpLogs s; isStreaming := isStreaming s;
     abortControllerRef := v; console := console s;
     fetches := fetches s; clock := clock s |}.

Definition with_console (v : list jsstring) (s : State) :=
  {| displayMessages := displayMessages s; chatHistory := chatHistory s;
     httpLogs := httpLogs s; isStreaming := isStreaming s;
     abortControllerRef := abortControllerRef s; console := v;
     fetches := fetches s; clock := clock s |}.

Definition with_fetches (v : list FetchRequest) (s : State) :=
  {| displayMessages := displayMessages s; chatHistory := chatHistory s;
     httpLogs := httpLogs s; isStreaming := isStreaming s;
     abortControllerRef := abortControllerRef s; console := console s;
     fetches := v; clock := clock s |}.

Definition with_clock (v : nat) (s : State) :=
  {| displayMessages := displayMessages s; chatHistory := chatHistory s;
     httpLogs := httpLogs s; isStreaming := isStreaming s;
     abortControllerRef := abortControllerRef s; console := console s;
     fetches := fetches s; clock := v |}.

(** ** Computations: state passing with exceptions *)

Definition M (A : Type) : Type := State -> completion A * State.

Definition ret {A} (a : A) : M A := fun s => (Normal a, s).

Definition bind {A B} (c : M A) (k : A -> M B) : M B :=
  fun s => match c s with
           | (Normal a, s') => k a s'
           | (Throw e, s') => (Throw e, s')
           end.

Definition throw {A} (e : JsError) : M A := fun s => (Throw e, s).

(** A completion of a pure expression, inside a computation. *)
Definition lift {A} (c : completion A) : M A := fun s => (c, s).

Definition modify (f : State -> State) : M unit := fun s => (Normal tt, f s).

Definition gets {A} (f : State -> A) : M A := fun s => (Normal (f s), s).

(** [try { body } catch (e) { handler e }] *)
Definition try_catch {A} (body : M A) (handler : JsError -> M A) : M A :=
  fun s => match body s with
           | (Normal a, s') => (Normal a, s')
           | (Throw e, s') => handler e s'
           end.

Declare Scope hook_scope.
Delimit Scope hook_scope with hook.
Notation "x <- c ;; k" := (bind c (fun x => k))
  (at level 61, c at next level, right associativity) : hook_scope.
Notation "c ;; k" := (bind c (fun _ => k))
  (at level 61, right associativity) : hook_scope.
Open Scope hook_scope.

(** [for (const x of xs) { f x }] *)
Fixpoint for_of {A} (xs : list A) (f : A -> M unit) : M unit :=
  match xs with
  | [] => ret tt
  | x :: rest => f x ;; for_of rest f
  end.

(** ** The hook (useChat.ts) *)

Section Hook.
Context {rt : Runtime}.

(** Reads the identifier and the wall clock of the current instant. *)
Definition stamp : M (jsstring * Z) :=
  fun s => (Normal (fresh_id (clock s), Date_now (clock s)),
            with_clock (S (clock s)) s).

(** The resumption of an [await]: time has passed. *)
Definition resumed : M unit :=
  modify (fun s => with_clock (S (clock s)) s).

(** Lines 37-46. *)
Definition addDisplayMessage (role : Role) (content : DisplayContent)
  : M DisplayMessage :=
  st <- stamp ;;
  let message := {| dm_id := fst st; dm_role := role;
                    dm_content := content; dm_timestamp := snd st |} in
  modify (fun s => with_displayMessages (displayMessages s ++ [message]) s) ;;
  ret message.

(** Lines 48-57. *)
Definition addHttpLog (data : json) : M unit :=
  st <- stamp ;;
  let log := {| log_id := fst st; log_timestamp := snd st;
                log_request := get_property (lit "request") data;
                log_response := get_property (lit "response") data;
                log_error := get_property (lit "error") data |} in
  modify (fun s => with_httpLogs (httpLogs s ++ [log]) s).

Definition setChatHistory (v : jsvalue) : M unit :=
  modify (with_chatHistory v).

Definition setIsStreaming (b : bool) : M unit :=
  modify (with_isStreaming b).

Definition console_error (data : jsstring) : M unit :=
  modify (fun s => with_console (console s ++ [data]) s).

(** The bodies of the branches of lines 128-167; [event] is the parsed
    object under the type of its branch. *)
Definition dispatch (ty : SSEEventType) (event : json) : M unit :=
  match ty with
  | ev_message =>
      addDisplayMessage assistant
        (Text (get_property (lit "text") event)) ;; ret tt
  | ev_thinking =>
      addDisplayMessage assistant
        (Thinking (get_property (lit "thinking") event)) ;; ret tt
  | ev_tool_use =>
      addDisplayMessage assistant
        (ToolUse (get_property (lit "id") event)
                 (get_property (lit "name") event)
                 (get_property (lit "input") event)) ;; ret tt
  | ev_tool_result =>
      addDisplayMessage tool
        (ToolResult (get_property (lit "tool_id") event)
                    (get_property (lit "output") event)
                    (get_property (lit "error") event)
                    (get_property (lit "base64_image") event)) ;; ret tt
  | ev_http_log => addHttpLog event
  | ev_error =>
      addDisplayMessage assistant
        (ErrorContent (get_property (lit "error") event)) ;; ret tt
  | ev_done => setChatHistory (get_property (lit "messages") event)
  end.

(** Lines 124-170: the guarded block run on a non-empty payload. *)
Definition handleData (data : jsstring) : M unit :=
  try_catch
    (match JSON_parse data with
     | None => throw SyntaxError
     | Some parsed =>
         ty <- lift (classify parsed) ;;
         match ty with
         | Some t => dispatch t parsed
         | None => ret tt
         end
     end)
    (fun _ => console_error data).

(** Lines 117-171: the body of the loop over complete lines. *)
Definition processLine (line : jsstring) : M unit :=
  if startsWith (lit "event:") line then ret tt
  else if startsWith (lit "data:") line then
    let data := trim (slice 5 line) in
    match data with
    | [] => ret tt
    | _ :: _ => handleData data
    end
  else ret tt.

(** [decoder.decode(value, { stream: true })] *)
Fixpoint decode (d : decoder_state) (value : list Byte.byte)
  : decoder_state * jsstring :=
  match value with
  | [] => (d, [])
  | b :: rest =>
      let (d1, out1) := decoder_byte d b in
      let (d2, out2) := decode d1 rest in
      (d2, out1 ++ out2)
  end.

(** Lines 112-172: one turn of the read loop on a chunk; returns the
    decoder and the partial line carried to the next turn. *)
Definition processChunk (d : decoder_state) (buffer : jsstring)
           (value : list Byte.byte) : M (decoder_state * jsstring) :=
  let (d', decoded) := decode d value in
  let lines := split_newline (buffer ++ decoded) in
  for_of (removelast lines) processLine ;;
  ret (d', last lines []).

(** Lines 174-185: the handler of the outer [try]. *)
Definition catch_clause (error : JsError) : M unit :=
  if eqb_jsstring (name error) (lit "AbortError") then
    addDisplayMessage assistant
      (Text (Some (JStr (lit "(stopped by user)")))) ;; ret tt
  else
    addDisplayMessage assistant
      (ErrorContent (Some (JStr (message error)))) ;; ret tt.

(** Lines 186-189. *)
Definition finally_clause : M unit :=
  setIsStreaming false ;;
  modify (with_abortControllerRef None).

End Hook.

(** ** [sendMessage] as a resumable computation *)

(** Surrogate code units: the string iterator joins a lead and a trail. *)
Definition is_lead (c : char16) : bool := ((55296 <=? c) && (c <=? 56319))%N.
Definition is_trail (c : char16) : bool := ((56320 <=? c) && (c <=? 57343))%N.

(** The strings a string yields when iterated: one per code point. *)
Fixpoint string_iterator (s : jsstring) : list jsstring :=
  match s with
  | [] => []
  | c :: rest =>
      match rest with
      | d :: rest' =>
          if is_lead c && is_trail d then [c; d] :: string_iterator rest'
          else [c] :: string_iterator rest
      | [] => [[c]]
      end
  end.

(** The elements [...v] contributes to an array literal. *)
Definition spread (v : jsvalue) : completion (list json) :=
  match v with
  | Some (JArr items) => Normal items
  | Some (JStr s) => Normal (map JStr (string_iterator s))
  | _ => Throw TypeError_spread
  end.

(** Lines 64-67. *)
Definition userMessage (text : jsstring) : json :=
  JObj [(lit "role", JStr (lit "user")); (lit "content", JStr text)].

(** Lines 81-92: the object serialised as the body. *)
Definition chat_request (config : AppConfig) (updatedHistory : list json)
  : ChatRequest :=
  {| rq_messages := updatedHistory;
     rq_model := model config;
     rq_provider := provider config;
     rq_api_key := match apiKey config with
                   | [] => None
                   | _ :: _ => Some (apiKey config)
                   end;
     rq_system_prompt_suffix := systemPromptSuffix config;
     rq_only_n_most_recent_images := onlyNMostRecentImages config;
     rq_max_tokens := maxTokens config;
     rq_tool_version := toolVersion config;
     rq_thinking_budget := if thinkingEnabled config
                           then Some (thinkingBudget config) else None;
     rq_token_efficient_tools_beta := tokenEfficientToolsBeta config |}.

(** What the hook reads of a [Response]. *)
Record Response := { status : N; has_body : bool }.

(** [response.ok]: the status is in the range 200-299. *)
Definition ok (response : Response) : bool :=
  ((200 <=? status response) && (status response <=? 299))%N.

(** How the awaited [fetch] promise settles. *)
Inductive FetchResult :=
| FetchResolved (response : Response)
| FetchRejected (e : JsError).

(** How one awaited [reader.read()] settles. *)
Inductive ReadResult :=
| ReadValue (value : list Byte.byte)
| ReadDone
| ReadRejected (e : JsError).

Section SendMessage.
Context {rt : Runtime}.

(** Where an invocation of [sendMessage] is suspended: at the [await] of
    line 76, or at the one of line 109 with the locals of the loop. *)
Inductive Continuation :=
| AwaitFetch
| AwaitRead (decoder : decoder_state) (buffer : jsstring).

(** How a stretch of the [try] block ends when it does not throw. *)
Inductive Progress :=
| Suspend (k : Continuation)
| Leave.

(** Lines 61-73, before the [try]. *)
Definition prologue (text : jsstring) : M (list json) :=
  addDisplayMessage user (Text (Some (JStr text))) ;;
  history <- gets chatHistory ;;
  prior <- lift (spread history) ;;
  let updatedHistory := prior ++ [userMessage text] in
  setChatHistory (Some (JArr updatedHistory)) ;;
  modify (with_abortControllerRef (Some {| aborted := false |})) ;;
  setIsStreaming true ;;
  ret updatedHistory.

(** Lines 76-94, up to the [await]. *)
Definition issue_fetch (config : AppConfig) (updatedHistory : list json)
  : M Progress :=
  let request := {| url := lit "/api/chat/stream";
                    method := lit "POST";
                    content_type := lit "application/json";
                    body := chat_request config updatedHistory |} in
  modify (fun s => with_fetches (fetches s ++ [request]) s) ;;
  ret (Suspend AwaitFetch).

(** Lines 94-109: from the settled [fetch] to the first read. *)
Definition after_fetch (r : FetchResult) : M Progress :=
  resumed ;;
  match r with
  | FetchRejected e => throw e
  | FetchResolved response =>
      if negb (ok response) then
        throw (Error (lit "HTTP error! status: "
                        ++ decimal (status response)))
      else if negb (has_body response) then
        throw (Error (lit "No response body"))
      else ret (Suspend (AwaitRead decoder_start []))
  end.

(** Lines 109-173: from a settled read to the next one. *)
Definition after_read (d : decoder_state) (buffer : jsstring)
           (r : ReadResult) : M Progress :=
  resumed ;;
  match r with
  | ReadRejected e => throw e
  | ReadDone => ret Leave
  | ReadValue value =>
      p <- processChunk d buffer value ;;
      ret (Suspend (AwaitRead (fst p) (snd p)))
  end.

(** The hook together with the invocation of [sendMessage] in flight. *)
Record Session := { state : State; pending : option Continuation }.

(** A stretch of the [try] block of lines 75-189 with its [catch] and
    [finally] clauses. *)
Definition guarded (stretch : M Progress) (s : State) : Session :=
  match stretch s with
  | (Normal (Suspend k), s') => {| state := s'; pending := Some k |}
  | (Normal Leave, s') =>
      {| state := snd (finally_clause s'); pending := None |}
  | (Throw e, s') =>
      {| state := snd ((catch_clause e ;; finally_clause) s');
         pending := None |}
  end.

(** The call [sendMessage(text)], run to its first [await].  A fault of
    the prologue is outside the [try]: it rejects the returned promise. *)
Definition sendMessage (config : AppConfig) (text : jsstring) (s : State)
  : Session :=
  match prologue text s with
  | (Normal updatedHistory, s') =>
      guarded (issue_fetch config updatedHistory) s'
  | (Throw _, s') => {| state := s'; pending := None |}
  end.

(** Lines 192-196. *)
Definition stop (s : State) : State :=
  match abortControllerRef s with
  | Some _ => with_abortControllerRef (Some {| aborted := true |}) s
  | None => s
  end.

(** Lines 198-202. *)
Definition clearMessages (s : State) : State :=
  with_httpLogs [] (with_chatHistory (Some (JArr []))
                      (with_displayMessages [] s)).

(** What can happen to a session: a call from the interface, or the
    settlement of the promise the invocation awaits. *)
Inductive Action :=
| CallSendMessage (config : AppConfig) (text : jsstring)
| CallStop
| CallClearMessages
| FetchSettled (r : FetchResult)
| ReadSettled (r : ReadResult).

(** One action.  [None]: the action cannot happen in this session (no
    such promise is awaited; or a second [sendMessage] while one is in
    flight, which the interface rules out by its [isStreaming] guard). *)
Definition step (ss : Session) (a : Action) : option Session :=
  match a, pending ss with
  | CallSendMessage config text, None =>
      Some (sendMessage config text (state ss))
  | CallStop, k => Some {| state := stop (state ss); pending := k |}
  | CallClearMessages, k =>
      Some {| state := clearMessages (state ss); pending := k |}
  | FetchSettled r, Some AwaitFetch =>
      Some (guarded (after_fetch r) (state ss))
  | ReadSettled r, Some (AwaitRead d buffer) =>
      Some (guarded (after_read d buffer r) (state ss))
  | _, _ => None
  end.

Fixpoint run (ss : Session) (actions : list Action) : option Session :=
  match actions with
  | [] => Some ss
  | a :: rest =>
      match step ss a with
      | Some ss' => run ss' rest
      | None => None
      end
  end.

Definition initial_session : Session :=
  {| state := initial_state; pending := None |}.

(** The sessions the hook can be in. *)
Definition reachable (ss : Session) : Prop :=
  exists actions, run initial_session actions = Some ss.

(** The transcript up to identifiers and time stamps: roles and contents. *)
Definition transcript (s : State) : list (Role * DisplayContent) :=
  map (fun m => (dm_role m, dm_content m)) (displayMessages s).

End SendMessage.

(** ** The decoding policy as the specification words it (section 4.1)

    The seven shapes in their priority order, each a test on the fields of
    the object; an object is the event of the first shape it has, and is
    dropped when it has none. *)

Definition has (k : string) (fields : list (jsstring * json)) : bool :=
  is_some (lookup (lit k) fields).

(** "explicit text-typed marker" *)
Definition text_marker (fields : list (jsstring * json)) : bool :=
  match lookup (lit "type") fields with
  | Some (JStr s) => eqb_jsstring s (lit "text")
  | _ => false
  end.

(** "[request] field whose nested object has [method]" *)
Definition request_has_method (fields : list (jsstring * json)) : bool :=
  match lookup (lit "request") fields with
  | Some (JObj r) => has "method" r
  | _ => false
  end.

Definition priority_list
  : list ((list (jsstring * json) -> bool) * SSEEventType) :=
  [ (fun o => has "text" o && text_marker o, ev_message);
    (fun o => has "thinking" o, ev_thinking);
    (fun o => has "name" o && has "input" o, ev_tool_use);
    (fun o => has "tool_id" o, ev_tool_result);
    (request_has_method, ev_http_log);
    (fun o => has "error" o && has "type" o, ev_error);
    (fun o => has "messages" o, ev_done) ].

Definition spec_classify (fields : list (jsstring * json))
  : option SSEEventType :=
  option_map snd (find (fun rule => fst rule fields) priority_list).

(** The [request] field holds a primitive: a value on which [in] throws. *)
Definition request_is_primitive (fields : list (jsstring * json)) : bool :=
  match lookup (lit "request") fields with
  | Some (JObj _) | Some (JArr _) | None => false
  | Some _ => true
  end.

(** ** Relations between states and between sessions *)

(** A computation always completes normally. *)
Definition total {A} (c : M A) : Prop :=
  forall s, exists a, fst (c s) = Normal a.

(** A computation moves the state along a relation. *)
Definition respects {A} (R : State -> State -> Prop) (c : M A) : Prop :=
  forall s, R s (snd (c s)).

(** [s'] has the transcript of [s] as a prefix. *)
Definition extends (s s' : State) : Prop :=
  exists suffix, displayMessages s' = displayMessages s ++ suffix.

(** The flag and the handle are left alone. *)
Definition same_control (s s' : State) : Prop :=
  isStreaming s' = isStreaming s
  /\ abortControllerRef s' = abortControllerRef s.

(** The flag and the handle follow the invocation in flight. *)
Definition coherent {rt : Runtime} (ss : Session) : Prop :=
  match pending ss with
  | None => isStreaming (state ss) = false
            /\ abortControllerRef (state ss) = None
  | Some _ => isStreaming (state ss) = true
              /\ abortControllerRef (state ss) <> None
  end.

(** What [split] and [pop] make of a buffer: the lines to process and the
    partial line to carry. *)
Definition complete_lines (s : jsstring) : list jsstring :=
  removelast (split_newline s).

Definition partial_line (s : jsstring) : jsstring :=
  last (split_newline s) [].

Definition log_payload (l : HttpLogEntry) : jsvalue * jsvalue * jsvalue :=
  (log_request l, log_response l, log_error l).

(** Two states show the same transcript, history, log and console; the
    identifiers and time stamps of their entries may differ. *)
Definition same_view (s1 s2 : State) : Prop :=
  transcript s1 = transcript s2
  /\ chatHistory s1 = chatHistory s2
  /\ map log_payload (httpLogs s1) = map log_payload (httpLogs s2)
  /\ console s1 = console s2.

(** A computation cannot tell such states apart. *)
Definition agree {A} (c : M A) : Prop :=
  forall s1 s2, same_view s1 s2 ->
    fst (c s1) = fst (c s2) /\ same_view (snd (c s1)) (snd (c s2)).

(** The settlement of a read with a chunk. *)
Definition chunk_action (value : list Byte.byte) : Action :=
  ReadSettled (ReadValue value).

(** The session of a step that is known to happen. *)
Definition show_session {rt : Runtime} (o : option Session) : Session :=
  match o with Some ss => ss | None => initial_session end.

(** ** A runtime for the examples *)

(** An ASCII literal in which ['] stands for the double quote. *)
Definition jsonlit (s : string) : jsstring :=
  map (fun c => if N.eqb c 39 then 34%N else c) (lit s).

Definition ambiguous_event : json :=
  JObj [(lit "thinking", JStr (lit "hm")); (lit "tool_id", JStr (lit "t1"))].

Definition done_event : json :=
  JObj [(lit "messages",
         JArr [JObj [(lit "role", JStr (lit "assistant"));
                     (lit "content", JStr (lit "ok"))]])].

(** An object with the shape of a text event that also carries [thinking]
    and [tool_id]. *)
Definition text_thinking_tool_fields : list (jsstring * json) :=
  [(lit "type", JStr (lit "text")); (lit "text", JStr (lit "hi"));
   (lit "thinking", JStr (lit "hm")); (lit "tool_id", JStr (lit "t1"))].

(** [JSON.parse] on the payloads of the examples; every other payload the
    examples use is not JSON. *)
Definition sample_parse (data : jsstring) : option json :=
  if eqb_jsstring data (jsonlit "{'thinking':'hm','tool_id':'t1'}")
  then Some ambiguous_event
  else if eqb_jsstring data
            (jsonlit "{'messages':[{'role':'assistant','content':'ok'}]}")
  then Some done_event
  else None.

(** The UTF-8 decoder on ASCII bytes: one code unit per byte, no state. *)
Definition ascii_byte (_ : unit) (b : Byte.byte) : unit * jsstring :=
  (tt, [Byte.to_N b]).

Definition sample_runtime : Runtime :=
  {| JSON_parse := sample_parse;
     decoder_state := unit;
     decoder_start := tt;
     decoder_byte := ascii_byte;
     fresh_id := fun t => lit "m" ++ decimal (N.of_nat t);
     Date_now := fun t => Z.of_nat t |}.

(** The bytes of an ASCII literal, ['] standing for the double quote. *)
Definition bytes (s : string) : list Byte.byte :=
  map (fun a => if Ascii.eqb a "'"%char then Byte.x22 else byte_of_ascii a)
      (list_ascii_of_string s).

(** A [200] response with a body, and a [500] response. *)
Definition response_200 : Response := {| status := 200; has_body := true |}.
Definition response_500 : Response := {| status := 500; has_body := true |}.

Definition default_config : AppConfig :=
  {| provider := anthropic; apiKey := [];
     model := lit "claude-sonnet-4-5-20250929";
     systemPromptSuffix := []; onlyNMostRecentImages := 3%float;
     maxTokens := 16384%float; toolVersion := lit "computer_use_20250124";
     thinkingEnabled := false; thinkingBudget := 8192%float;
     hideImages := false; tokenEfficientToolsBeta := false |}.

(** A session awaiting the response to its first message; one that has
    streamed a thinking event and the final history; one cut off in the
    middle of a line. *)
Definition session_sent : Session :=
  sendMessage (rt := sample_runtime) default_config (lit "hi") initial_state.

Definition stream_chunks : list (list Byte.byte) :=
  [ bytes "event: thinking";
    Byte.x0a :: bytes "data: {'thinking':'hm','tool_id':'t1'}"
      ++ [Byte.x0a; Byte.x0a];
    bytes "data: {'messages':[{'role':'assistant',"
      ++ bytes "'content':'ok'}]}" ++ [Byte.x0a] ].

Definition stream_actions : list Action :=
  CallSendMessage default_config (lit "hi")
  :: FetchSettled (FetchResolved response_200)
  :: map (fun value => ReadSettled (ReadValue value)) stream_chunks
  ++ [ReadSettled ReadDone].

Definition session_streaming : Session :=
  show_session
    (run (@initial_session sample_runtime)
         [ CallSendMessage default_config (lit "hi");
           FetchSettled (FetchResolved response_200);
           ReadSettled (ReadValue (bytes "data: {'thi")) ]).

(** The rejection of a read whose request was aborted. *)
Definition AbortError : JsError :=
  {| name := lit "AbortError"; message := lit "The user aborted a request." |}.

(** ** Further notions for the hook *)

(** The awaited [fetch] settles in a way that makes the [try] block throw:
    a rejection, a status outside 200-299, or no body. *)
Definition fetch_faults (r : FetchResult) : bool :=
  match r with
  | FetchRejected _ => true
  | FetchResolved response => negb (ok response) || negb (has_body response)
  end.


(** A log entry whose [request] is an object with a [method]: what the log
    viewer reads as [log.request.method]. *)
Definition log_has_method (l : HttpLogEntry) : Prop :=
  exists r m, log_request l = Some (JObj r)
              /\ lookup (lit "method") r = Some m.

(** What the events of a stream and the clauses of the [try] do to the
    transcript, the log and the requests: entries that are not the user's
    are appended, well-formed log entries are appended, no request is
    issued. *)
Definition stream_effect (s s' : State) : Prop :=
  exists entries logs,
    displayMessages s' = displayMessages s ++ entries
    /\ Forall (fun m => dm_role m <> user) entries
    /\ httpLogs s' = httpLogs s ++ logs
    /\ Forall log_has_method logs
    /\ fetches s' = fetches s.

(** ** A runtime with an HTTP-log payload, for further examples *)

Definition http_log_event : json :=
  JObj [(lit "request",
         JObj [(lit "method", JStr (lit "POST"));
               (lit "url", JStr (lit "https://api.anthropic.com/v1/messages"))]);
        (lit "response", JObj [(lit "status_code", JNum 200%float)])].

Definition http_log_payload : string :=
  "{'request':{'method':'POST','url':'https://api.anthropic.com/v1/messages'},'response':{'status_code':200}}".

(** [JSON.parse] on the payloads of the examples, the HTTP-log payload
    included. *)
Definition exchange_parse (data : jsstring) : option json :=
  if eqb_jsstring data (jsonlit http_log_payload) then Some http_log_event
  else sample_parse data.

Definition exchange_runtime : Runtime :=
  {| JSON_parse := exchange_parse;
     decoder_state := unit;
     decoder_start := tt;
     decoder_byte := ascii_byte;
     fresh_id := fun t => lit "m" ++ decimal (N.of_nat t);
     Date_now := fun t => Z.of_nat t |}.

(** A session of that runtime that reads the body of its first response. *)
Definition session_reading : Session :=
  show_session
    (run (@initial_session exchange_runtime)
         [ CallSendMessage default_config (lit "hi");
           FetchSettled (FetchResolved response_200) ]).

Definition http_log_chunk : list Byte.byte :=
  bytes "event: http_log" ++ [Byte.x0a]
  ++ bytes "data: " ++ bytes http_log_payload ++ [Byte.x0a; Byte.x0a].

(** The same session once the HTTP-log event has been read. *)
Definition session_logged : Session :=
  show_session (step session_reading (ReadSettled (ReadValue http_log_chunk))).

(** The chunks of the example stream followed by an event line whose
    newline never arrives. *)
Definition unterminated_chunks : list (list Byte.byte) :=
  stream_chunks ++ [bytes "data: {'thinking':'hm','tool_id':'t1'}"].

(** The settlement that rejects the promise an invocation awaits. *)
Definition rejection {rt : Runtime} (k : Continuation) (e : JsError)
  : Action :=
  match k with
  | AwaitFetch => FetchSettled (FetchRejected e)
  | AwaitRead _ _ => ReadSettled (ReadRejected e)
  end.

(** The calls of [sendMessage] among some actions. *)
Definition sends (actions : list Action) : nat :=
  List.length (filter (fun a => match a with
                                | CallSendMessage _ _ => true
                                | _ => false
                                end) actions).

(** A network failure, as [fetch] reports it. *)
Definition NetworkError : JsError :=
  {| name := lit "TypeError"; message := lit "Failed to fetch" |}.

(** A [204] response, which has no body. *)
Definition response_204 : Response := {| status := 204; has_body := false |}.

(** The values an array literal can spread: arrays and strings. *)
Definition iterable (v : jsvalue) : bool :=
  match v with
  | Some (JArr _) | Some (JStr _) => true
  | _ => false
  end.

(** A state whose history a done event has set to [null]. *)
Definition state_null_history : State :=
  with_chatHistory (Some JNull) initial_state.

(** ** The interface around the hook

    The handlers of the chat view and of the application that decide
    whether [sendMessage] is called, and the calls of the API module they
    rely on. *)

(** Truthiness of a value: [undefined], [null], [false], [0], [NaN] and the
    empty string are falsy. *)
Definition js_truthy (v : jsvalue) : bool :=
  match v with
  | None | Some JNull => false
  | Some (JBool b) => b
  | Some (JNum n) => negb (PrimFloat.is_zero n || PrimFloat.is_nan n)
  | Some (JStr s) => match s with [] => false | _ :: _ => true end
  | Some (JArr _) | Some (JObj _) => true
  end.

(** The fault of reading a property of [null]. *)
Definition TypeError_null : JsError :=
  {| name := lit "TypeError";
     message := lit "Cannot read properties of null" |}.

(** [v.k] for the property names [valid] and [error]: [undefined] on
    anything but an object that has the key, a fault on [null]. *)
Definition member (k : jsstring) (v : json) : completion jsvalue :=
  match v with
  | JNull => Throw TypeError_null
  | JObj fields => Normal (lookup k fields)
  | _ => Normal None
  end.

(** The API module: each call throws its own [Error] on a status outside
    200-299 and otherwise returns what [response.json()] gives; a rejected
    fetch is passed on. *)
Definition api_call (failure : string) (settled : FetchResult)
           (parsed_body : completion json) : completion json :=
  match settled with
  | FetchRejected e => Throw e
  | FetchResolved response =>
      if negb (ok response) then Throw (Error (lit failure))
      else parsed_body
  end.

Definition fetchStoredApiKey := api_call "Failed to fetch API key status".
Definition fetchConfig := api_call "Failed to fetch config".
Definition validateAuth := api_call "Failed to validate auth".
Definition resetEnvironment := api_call "Failed to reset environment".
Definition healthCheck := api_call "API is not healthy".

(** The application, lines 78-88: the value the validation effect gives to
    [authError], from the way its request settled and its body parsed. *)
Definition validate (settled : FetchResult) (parsed_body : completion json)
  : jsvalue :=
  match
    cbind (validateAuth settled parsed_body) (fun result =>
    cbind (member (lit "valid") result) (fun valid =>
    if js_truthy valid then Normal (Some JNull)
    else cbind (member (lit "error") result) (fun error =>
         Normal (if js_truthy error then error
                 else Some (JStr (lit "Authentication failed"))))))
  with
  | Normal authError => authError
  | Throw _ => Some (JStr (lit "Failed to validate authentication"))
  end.

(** The application, lines 109-112: the text handed to [sendMessage], if
    any. *)
Definition handleSendMessage (authError : jsvalue) (message : jsstring)
  : option jsstring :=
  if js_truthy authError then None else Some message.

(** The chat view, lines 37-43: the text handed to [onSendMessage], if any,
    and the input field afterwards. *)
Definition handleSubmit (input : jsstring) (streaming : bool)
  : option jsstring * jsstring :=
  if js_truthy (Some (JStr (trim input))) && negb streaming
  then (Some (trim input), [])
  else (None, input).

(** A submission of the form, through both handlers, on a session. *)
Definition submit {rt : Runtime} (config : AppConfig) (authError : jsvalue)
           (input : jsstring) (ss : Session) : option Session * jsstring :=
  match handleSubmit input (isStreaming (state ss)) with
  | (Some message, input') =>
      match handleSendMessage authError message with
      | Some text => (step ss (CallSendMessage config text), input')
      | None => (Some ss, input')
      end
  | (None, input') => (Some ss, input')
  end.

(** ** The open items of the log viewer (HttpLogs.tsx, lines 17-29)

    A [Set] of identifiers: the list of its elements in insertion order,
    without repetition. *)

Definition set_has (id : jsstring) (s : list jsstring) : bool :=
  existsb (eqb_jsstring id) s.

Definition set_delete (id : jsstring) (s : list jsstring) : list jsstring :=
  filter (fun x => negb (eqb_jsstring id x)) s.

Definition set_add (id : jsstring) (s : list jsstring) : list jsstring :=
  if set_has id s then s else s ++ [id].

Definition toggleItem (id : jsstring) (prev : list jsstring)
  : list jsstring :=
  let next := prev in
  if set_has id next then set_delete id next else set_add id next.

(** The body of a validation that rejects the key with a message. *)
Definition invalid_key_result : json :=
  JObj [(lit "valid", JBool false);
        (lit "error", JStr (lit "Invalid API key"))].

(** ** The payload view of the log viewer (HttpLogs with request payloads,
    lines 277-309) *)

(** [`${value.slice(0, n)}... [${value.length} chars]`] *)
Definition truncated (n : nat) (value : jsstring) : json :=
  JStr (firstn n value ++ lit "... ["
        ++ decimal (N.of_nat (List.length value)) ++ lit " chars]").

(** [result[key] = v] on a fresh object creates the property [key], except
    for the key [__proto__], which the accessor of [Object.prototype]
    takes. *)
Definition creates_property (entry : jsstring * json) : bool :=
  negb (eqb_jsstring (fst entry) (lit "__proto__")).

(** [sanitizePayload(obj, depth)].  The items of a long array are mapped
    before the first ten are kept, which is the same list as in the source
    ([sanitizePayload_long_array] below). *)
Fixpoint sanitizePayload (obj : json) (depth : nat) {struct obj} : json :=
  if 5 <? depth then JStr (lit "[nested...]")
  else
    match obj with
    | JArr items =>
        if 10 <? List.length items then
          JArr (firstn 10 (map (fun item => sanitizePayload item (S depth))
                               items)
                ++ [JStr (lit "... and "
                          ++ decimal (N.of_nat (List.length items - 10))
                          ++ lit " more items")])
        else JArr (map (fun item => sanitizePayload item (S depth)) items)
    | JObj fields =>
        JObj (filter creates_property
                (map (fun entry =>
                        match entry with
                        | (key, value) =>
                            (key,
                             match value with
                             | JStr text =>
                                 if eqb_jsstring key (lit "data")
                                    && (100 <? List.length text)
                                 then truncated 50 text
                                 else if 500 <? List.length text
                                      then truncated 200 text
                                      else sanitizePayload value (S depth)
                             | _ => sanitizePayload value (S depth)
                             end)
                        end) fields))
    | _ => obj
    end.

(** How deep values sit in a value: 0 when it holds none. *)
Fixpoint height (v : json) : nat :=
  match v with
  | JArr items =>
      fold_right (fun item acc => Nat.max (S (height item)) acc) 0 items
  | JObj fields =>
      fold_right (fun entry acc => Nat.max (S (height (snd entry))) acc)
                 0 fields
  | _ => 0
  end.

(** Every array of a value has at most [n] items. *)
Fixpoint arrays_within (n : nat) (v : json) : bool :=
  match v with
  | JArr items => (List.length items <=? n) && forallb (arrays_within n) items
  | JObj fields => forallb (fun entry => arrays_within n (snd entry)) fields
  | _ => true
  end.

(** Every string that is the value of a property has at most [n] code
    units. *)
Fixpoint strings_within (n : nat) (v : json) : bool :=
  match v with
  | JArr items => forallb (strings_within n) items
  | JObj fields =>
      forallb (fun entry =>
                 match entry with
                 | (_, JStr text) => List.length text <=? n
                 | (_, value) => strings_within n value
                 end) fields
  | _ => true
  end.

(** No object of a value has a property named [__proto__]. *)
Fixpoint no_proto (v : json) : bool :=
  match v with
  | JArr items => forallb no_proto items
  | JObj fields =>
      forallb (fun entry => creates_property entry && no_proto (snd entry))
              fields
  | _ => true
  end.

(** A request body with a long array and a long base64 string. *)
Definition large_payload : json :=
  JObj [(lit "messages", JArr (repeat (JStr (lit "turn")) 12));
        (lit "data", JStr (repeat 65%N 120))].

(** ** The settings (Sidebar.tsx and the application) *)

(** [Partial<AppConfig>]: the properties a change carries. *)
Record ConfigChanges := {
  ch_provider : option Provider;
  ch_apiKey : option jsstring;
  ch_model : option jsstring;
  ch_systemPromptSuffix : option jsstring;
  ch_onlyNMostRecentImages : option float;
  ch_maxTokens : option float;
  ch_toolVersion : option jsstring;
  ch_thinkingEnabled : option bool;
  ch_thinkingBudget : option float;
  ch_hideImages : option bool;
  ch_tokenEfficientToolsBeta : option bool
}.

Definition or_else {A} (o : option A) (d : A) : A :=
  match o with Some a => a | None => d end.

(** The application, lines 92-94: [{ ...prev, ...changes }]. *)
Definition handleConfigChange (changes : ConfigChanges) (prev : AppConfig)
  : AppConfig :=
  {| provider := or_else (ch_provider changes) (provider prev);
     apiKey := or_else (ch_apiKey changes) (apiKey prev);
     model := or_else (ch_model changes) (model prev);
     systemPromptSuffix :=
       or_else (ch_systemPromptSuffix changes) (systemPromptSuffix prev);
     onlyNMostRecentImages :=
       or_else (ch_onlyNMostRecentImages changes)
               (onlyNMostRecentImages prev);
     maxTokens := or_else (ch_maxTokens changes) (maxTokens prev);
     toolVersion := or_else (ch_toolVersion changes) (toolVersion prev);
     thinkingEnabled :=
       or_else (ch_thinkingEnabled changes) (thinkingEnabled prev);
     thinkingBudget :=
       or_else (ch_thinkingBudget changes) (thinkingBudget prev);
     hideImages := or_else (ch_hideImages changes) (hideImages prev);
     tokenEfficientToolsBeta :=
       or_else (ch_tokenEfficientToolsBeta changes)
               (tokenEfficientToolsBeta prev) |}.

(** The name of a provider, its key in [default_models]. *)
Definition provider_name (p : Provider) : jsstring :=
  match p with
  | anthropic => lit "anthropic"
  | bedrock => lit "bedrock"
  | vertex => lit "vertex"
  end.

(** [serverConfig?.default_models[provider]], with [serverConfig] possibly
    [null]. *)
Definition default_model (default_models : option (list (jsstring * jsstring)))
           (p : Provider) : option jsstring :=
  match default_models with
  | None => None
  | Some models =>
      match find (fun entry => eqb_jsstring (provider_name p) (fst entry))
                 models with
      | Some entry => Some (snd entry)
      | None => None
      end
  end.

(** Sidebar.tsx, lines 58-61, through the handler of the application. *)
Definition handleProviderChange
           (default_models : option (list (jsstring * jsstring)))
           (config : AppConfig) (p : Provider) : AppConfig :=
  let defaultModel :=
    match default_model default_models p with
    | Some (c :: m) => c :: m
    | _ => model config
    end in
  handleConfigChange
    {| ch_provider := Some p; ch_apiKey := None;
       ch_model := Some defaultModel; ch_systemPromptSuffix := None;
       ch_onlyNMostRecentImages := None; ch_maxTokens := None;
       ch_toolVersion := None; ch_thinkingEnabled := None;
       ch_thinkingBudget := None; ch_hideImages := None;
       ch_tokenEfficientToolsBeta := None |}
    config.

(** ** The badge of a tool use (the chat view, line 74) *)





(** ** The settings as a whole (Sidebar.tsx; the application, lines 14-26,
    46-74 and 92-107) *)

(** [ModelConfig] and [ConfigResponse] of types.ts. *)
Record ModelConfig := {
  tool_version : jsstring;
  max_output_tokens : float;
  default_output_tokens : float;
  has_thinking : bool
}.

Record ConfigResponse := {
  providers : list jsstring;
  default_models : list (jsstring * jsstring);
  tool_versions : list jsstring;
  model_configs : list (jsstring * ModelConfig)
}.

(** [record[key]] on a record read from the server. *)
Fixpoint assoc {A} (key : jsstring) (record : list (jsstring * A))
  : option A :=
  match record with
  | [] => None
  | (k, v) :: rest => if eqb_jsstring key k then Some v else assoc key rest
  end.

(** [x || d] on numbers: [0] and [NaN] give way to [d]. *)
Definition or_number (x d : float) : float :=
  if js_truthy (Some (JNum x)) then x else d.

(** [x || d] on a string that may be [undefined]. *)
Definition or_string (x : option jsstring) (d : jsstring) : jsstring :=
  match x with
  | Some (c :: s) => c :: s
  | _ => d
  end.

Definition no_changes : ConfigChanges :=
  {| ch_provider := None; ch_apiKey := None; ch_model := None;
     ch_systemPromptSuffix := None; ch_onlyNMostRecentImages := None;
     ch_maxTokens := None; ch_toolVersion := None;
     ch_thinkingEnabled := None; ch_thinkingBudget := None;
     ch_hideImages := None; ch_tokenEfficientToolsBeta := None |}.

(** Sidebar.tsx, lines 129-136: the choice of a model. *)
Definition handleModelChange (serverConfig : option ConfigResponse)
           (config : AppConfig) (value : jsstring) : AppConfig :=
  let mc := match serverConfig with
            | Some sc => assoc value (model_configs sc)
            | None => None
            end in
  handleConfigChange
    {| ch_provider := None; ch_apiKey := None; ch_model := Some value;
       ch_systemPromptSuffix := None; ch_onlyNMostRecentImages := None;
       ch_maxTokens :=
         Some (match mc with
               | Some m => or_number (default_output_tokens m)
                                     (maxTokens config)
               | None => maxTokens config
               end);
       ch_toolVersion :=
         Some (or_string (option_map tool_version mc) (toolVersion config));
       ch_thinkingEnabled := None; ch_thinkingBudget := None;
       ch_hideImages := None; ch_tokenEfficientToolsBeta := None |}
    config.

(** [DEFAULT_CONFIG] of the application. *)
Definition DEFAULT_CONFIG : AppConfig := default_config.

(** The application, lines 58-66: the update made once the server
    configuration has loaded.  The provider read is the one of the first
    render, and a missing default model is looked up under the key
    'undefined'. *)
Definition configLoaded (serverCfg : ConfigResponse) (prev : AppConfig)
  : AppConfig :=
  let defaultModel :=
    assoc (provider_name (provider DEFAULT_CONFIG))
          (default_models serverCfg) in
  let modelConfig :=
    assoc (match defaultModel with
           | Some m => m
           | None => lit "undefined"
           end) (model_configs serverCfg) in
  handleConfigChange
    {| ch_provider := None; ch_apiKey := None;
       ch_model := Some (or_string defaultModel (model prev));
       ch_systemPromptSuffix := None; ch_onlyNMostRecentImages := None;
       ch_maxTokens := None;
       ch_toolVersion :=
         Some (or_string (option_map tool_version modelConfig)
                         (toolVersion prev));
       ch_thinkingEnabled := None; ch_thinkingBudget := None;
       ch_hideImages := None; ch_tokenEfficientToolsBeta := None |}
    prev.

(** What the user and the application can do to the settings.  A number
    input carries what [parseInt] made of its text. *)
Inductive SettingsAction :=
| ProviderChange (p : Provider)
| ModelChange (value : jsstring)
| ApiKeyInput (value : jsstring)
| RecentImagesInput (parsed : float)
| SystemPromptInput (value : jsstring)
| HideImagesSwitch (checked : bool)
| TokenEfficientSwitch (checked : bool)
| ToolVersionChange (value : jsstring)
| MaxTokensInput (parsed : float)
| ThinkingSwitch (checked : bool)
| ThinkingBudgetSlider (value : float)
| ConfigLoaded
| ResetDone.

Definition settings_step (serverConfig : option ConfigResponse)
           (config : AppConfig) (a : SettingsAction) : AppConfig :=
  match a with
  | ProviderChange p =>
      handleProviderChange (option_map default_models serverConfig) config p
  | ModelChange value => handleModelChange serverConfig config value
  | ApiKeyInput value =>
      handleConfigChange
        {| ch_provider := None; ch_apiKey := Some value; ch_model := None;
           ch_systemPromptSuffix := None; ch_onlyNMostRecentImages := None;
           ch_maxTokens := None; ch_toolVersion := None;
           ch_thinkingEnabled := None; ch_thinkingBudget := None;
           ch_hideImages := None; ch_tokenEfficientToolsBeta := None |}
        config
  | RecentImagesInput parsed =>
      handleConfigChange
        {| ch_provider := None; ch_apiKey := None; ch_model := None;
           ch_systemPromptSuffix := None;
           ch_onlyNMostRecentImages := Some (or_number parsed 0%float);
           ch_maxTokens := None; ch_toolVersion := None;
           ch_thinkingEnabled := None; ch_thinkingBudget := None;
           ch_hideImages := None; ch_tokenEfficientToolsBeta := None |}
        config
  | SystemPromptInput value =>
      handleConfigChange
        {| ch_provider := None; ch_apiKey := None; ch_model := None;
           ch_systemPromptSuffix := Some value;
           ch_onlyNMostRecentImages := None;
           ch_maxTokens := None; ch_toolVersion := None;
           ch_thinkingEnabled := None; ch_thinkingBudget := None;
           ch_hideImages := None; ch_tokenEfficientToolsBeta := None |}
        config
  | HideImagesSwitch checked =>
      handleConfigChange
        {| ch_provider := None; ch_apiKey := None; ch_model := None;
           ch_systemPromptSuffix := None; ch_onlyNMostRecentImages := None;
           ch_maxTokens := None; ch_toolVersion := None;
           ch_thinkingEnabled := None; ch_thinkingBudget := None;
           ch_hideImages := Some checked;
           ch_tokenEfficientToolsBeta := None |}
        config
  | TokenEfficientSwitch checked =>
      handleConfigChange
        {| ch_provider := None; ch_apiKey := None; ch_model := None;
           ch_systemPromptSuffix := None; ch_onlyNMostRecentImages := None;
           ch_maxTokens := None; ch_toolVersion := None;
           ch_thinkingEnabled := None; ch_thinkingBudget := None;
           ch_hideImages := None;
           ch_tokenEfficientToolsBeta := Some checked |}
        config
  | ToolVersionChange value =>
      handleConfigChange
        {| ch_provider := None; ch_apiKey := None; ch_model := None;
           ch_systemPromptSuffix := None; ch_onlyNMostRecentImages := None;
           ch_maxTokens := None; ch_toolVersion := Some value;
           ch_thinkingEnabled := None; ch_thinkingBudget := None;
           ch_hideImages := None; ch_tokenEfficientToolsBeta := None |}
        config
  | MaxTokensInput parsed =>
      handleConfigChange
        {| ch_provider := None; ch_apiKey := None; ch_model := None;
           ch_systemPromptSuffix := None; ch_onlyNMostRecentImages := None;
           ch_maxTokens := Some (or_number parsed 16384%float);
           ch_toolVersion := None;
           ch_thinkingEnabled := None; ch_thinkingBudget := None;
           ch_hideImages := None; ch_tokenEfficientToolsBeta := None |}
        config
  | ThinkingSwitch checked =>
      handleConfigChange
        {| ch_provider := None; ch_apiKey := None; ch_model := None;
           ch_systemPromptSuffix := None; ch_onlyNMostRecentImages := None;
           ch_maxTokens := None; ch_toolVersion := None;
           ch_thinkingEnabled := Some checked; ch_thinkingBudget := None;
           ch_hideImages := None; ch_tokenEfficientToolsBeta := None |}
        config
  | ThinkingBudgetSlider value =>
      handleConfigChange
        {| ch_provider := None; ch_apiKey := None; ch_model := None;
           ch_systemPromptSuffix := None; ch_onlyNMostRecentImages := None;
           ch_maxTokens := None; ch_toolVersion := None;
           ch_thinkingEnabled := None; ch_thinkingBudget := Some value;
           ch_hideImages := None; ch_tokenEfficientToolsBeta := None |}
        config
  | ConfigLoaded =>
      match serverConfig with
      | Some serverCfg => configLoaded serverCfg config
      | None => config
      end
  | ResetDone => DEFAULT_CONFIG
  end.

(** The settings after some actions, from those of the first render; each
    action comes with the server configuration known when it happens
    ([null] until it has loaded). *)
Definition settings_after
           (actions : list (option ConfigResponse * SettingsAction))
  : AppConfig :=
  fold_left (fun config step => settings_step (fst step) config (snd step))
            actions DEFAULT_CONFIG.

(** A server configuration whose only model has no thinking. *)
Definition plain_server : ConfigResponse :=
  {| providers := [lit "anthropic"];
     default_models := [(lit "anthropic", lit "claude-3-haiku")];
     tool_versions := [lit "computer_use_20241022"];
     model_configs :=
       [(lit "claude-3-haiku",
         {| tool_version := lit "computer_use_20241022";
            max_output_tokens := 4096%float;
            default_output_tokens := 4096%float;
            has_thinking := false |})] |}.

(** * Properties *)

(** ** Strings *)

Lemma eqb_jsstring_eq (a b : jsstring) : eqb_jsstring a b = true <-> a = b.
Proof.
  revert b; induction a as [|x a IH]; intros [|y b]; simpl;
    try (split; [discriminate | congruence]); try tauto.
  rewrite andb_true_iff, N.eqb_eq, IH. split.
  - intros [-> ->]; reflexivity.
  - intros E; injection E; auto.
Qed.

Lemma eqb_jsstring_refl (a : jsstring) : eqb_jsstring a a = true.
Proof. apply eqb_jsstring_eq; reflexivity. Qed.

(** ** The decoder *)

Section Decoder.
Variable fields : list (jsstring * json).

Ltac unfold_decoder :=
  cbv [classify spec_classify priority_list find option_map fst snd
       and_then cbind has_property method_in_request get_property
       type_is_text text_marker request_has_method request_is_primitive
       has].

(** On an object whose [request] is absent or is itself an object or an
    array, the chain of conditions is the priority list. *)
Lemma classify_priority_list :
  request_is_primitive fields = false ->
  classify (JObj fields) = Normal (spec_classify fields).
Proof.
  unfold_decoder.
  destruct (lookup (lit "text") fields) as [vtext|];
    destruct (lookup (lit "type") fields) as [[| | |ty| |]|];
    cbn [is_some andb];
    try destruct (eqb_jsstring ty (lit "text"));
    try reflexivity;
    (destruct (lookup (lit "thinking") fields); cbn [is_some];
     [reflexivity|]);
    (destruct (lookup (lit "name") fields);
     destruct (lookup (lit "input") fields); cbn [is_some andb];
     try reflexivity);
    (destruct (lookup (lit "tool_id") fields); cbn [is_some];
     [reflexivity|]);
    (destruct (lookup (lit "request") fields) as [[| | | | |r]|];
     cbn [is_some andb]; try discriminate;
     try destruct (lookup (lit "method") r); cbn [is_some];
     try reflexivity);
    intros _;
    (destruct (lookup (lit "error") fields); cbn [is_some andb];
     try reflexivity);
    (destruct (lookup (lit "messages") fields); reflexivity).
Qed.

(** An object with a [thinking] field is the event of the first or of the
    second shape. *)
Lemma classify_thinking :
  has "thinking" fields = true ->
  classify (JObj fields)
  = Normal (Some (if has "text" fields && text_marker fields
                  then ev_message else ev_thinking)).
Proof.
  unfold_decoder.
  destruct (lookup (lit "text") fields) as [vtext|];
    destruct (lookup (lit "type") fields) as [[| | |ty| |]|];
    cbn [is_some andb];
    try destruct (eqb_jsstring ty (lit "text"));
    destruct (lookup (lit "thinking") fields); cbn [is_some];
    try discriminate; reflexivity.
Qed.

End Decoder.

(** C1 (as amended).  On every parsed object whose [request] field, if any,
    is not a primitive, the decoder picks the event type by the priority
    list of section 4.1: text, thinking, tool use, tool result, HTTP log,
    error, done, else dropped.  An object with both a [thinking] and a
    [tool_id] field is a text event when it also has the first shape (a
    [text] field and [type] equal to 'text') and a thinking event
    otherwise; it is never a tool-result event. *)
Theorem decoder_priority_order (fields : list (jsstring * json)) :
  (request_is_primitive fields = false ->
   classify (JObj fields) = Normal (spec_classify fields))
  /\ (has "thinking" fields = true -> has "tool_id" fields = true ->
      classify (JObj fields)
      = Normal (Some (if has "text" fields && text_marker fields
                      then ev_message else ev_thinking))
      /\ classify (JObj fields) <> Normal (Some ev_tool_result)).
Proof.
  split.
  - apply classify_priority_list.
  - intros Hthinking _. rewrite (classify_thinking _ Hthinking).
    split; [reflexivity|].
    destruct (has "text" fields && text_marker fields); discriminate.
Qed.

Lemma decoder_priority_order_witness :
  request_is_primitive [(lit "thinking", JStr (lit "hm"));
                        (lit "tool_id", JStr (lit "t1"))] = false
  /\ classify ambiguous_event = Normal (Some ev_thinking)
  /\ classify ambiguous_event <> Normal (Some ev_tool_result).
Proof.
  split; [reflexivity|].
  exact (proj2 (decoder_priority_order
                  [(lit "thinking", JStr (lit "hm"));
                   (lit "tool_id", JStr (lit "t1"))])
               eq_refl eq_refl).
Defined.

(** C1 as stated fails: an object can carry [thinking] and [tool_id] and
    still be classified by the first rule, as a text event. *)
Lemma thinking_and_tool_id_classified_as_text :
  has "thinking" text_thinking_tool_fields = true
  /\ has "tool_id" text_thinking_tool_fields = true
  /\ classify (JObj text_thinking_tool_fields) = Normal (Some ev_message)
  /\ classify (JObj text_thinking_tool_fields) <> Normal (Some ev_thinking).
Proof. repeat split; try reflexivity. discriminate. Qed.

(** ** Reasoning about computations *)

Section Respects.
Variable R : State -> State -> Prop.
Hypothesis R_refl : forall s, R s s.
Hypothesis R_trans : forall s1 s2 s3, R s1 s2 -> R s2 s3 -> R s1 s3.

Lemma respects_ret {A} (a : A) : respects R (ret a).
Proof. intros s; apply R_refl. Qed.

Lemma respects_throw {A} (e : JsError) : respects R (@throw A e).
Proof. intros s; apply R_refl. Qed.

Lemma respects_lift {A} (c : completion A) : respects R (lift c).
Proof. intros s; apply R_refl. Qed.

Lemma respects_gets {A} (f : State -> A) : respects R (gets f).
Proof. intros s; apply R_refl. Qed.

Lemma respects_bind {A B} (c : M A) (k : A -> M B) :
  respects R c -> (forall a, respects R (k a)) -> respects R (bind c k).
Proof.
  intros Hc Hk s. unfold bind. specialize (Hc s).
  destruct (c s) as [[a|e] s']; simpl in *; [|exact Hc].
  eapply R_trans; [exact Hc | apply Hk].
Qed.

Lemma respects_try_catch {A} (c : M A) (h : JsError -> M A) :
  respects R c -> (forall e, respects R (h e)) -> respects R (try_catch c h).
Proof.
  intros Hc Hh s. unfold try_catch. specialize (Hc s).
  destruct (c s) as [[a|e] s']; simpl in *; [exact Hc|].
  eapply R_trans; [exact Hc | apply Hh].
Qed.

Lemma respects_for_of {A} (xs : list A) (f : A -> M unit) :
  (forall x, respects R (f x)) -> respects R (for_of xs f).
Proof.
  intros Hf. induction xs as [|x xs IH]; simpl.
  - apply respects_ret.
  - apply respects_bind; auto.
Qed.

Context {rt : Runtime}.
Hypothesis R_stamp : respects R stamp.
Hypothesis R_resumed : respects R resumed.
Hypothesis R_display :
  forall v, respects R (modify (fun s =>
                          with_displayMessages (displayMessages s ++ v) s)).
Hypothesis R_logs :
  forall v, respects R (modify (fun s => with_httpLogs (httpLogs s ++ v) s)).
Hypothesis R_console :
  forall v, respects R (modify (fun s => with_console (console s ++ v) s)).

Lemma respects_addDisplayMessage role content :
  respects R (addDisplayMessage role content).
Proof.
  unfold addDisplayMessage.
  apply respects_bind; [exact R_stamp|]. intros st.
  apply respects_bind; [apply R_display|]. intros _. apply respects_ret.
Qed.

Lemma respects_addHttpLog data : respects R (addHttpLog data).
Proof.
  unfold addHttpLog. apply respects_bind; [exact R_stamp|]. intros st.
  apply R_logs.
Qed.

Lemma respects_catch_clause e : respects R (catch_clause e).
Proof.
  unfold catch_clause. destruct (eqb_jsstring _ _);
    (apply respects_bind; [apply respects_addDisplayMessage|]);
    intros _; apply respects_ret.
Qed.

Hypothesis R_history : forall v, respects R (setChatHistory v).

Lemma respects_dispatch ty event : respects R (dispatch ty event).
Proof.
  destruct ty; simpl;
    try (apply respects_bind; [apply respects_addDisplayMessage|];
         intros _; apply respects_ret).
  - apply respects_addHttpLog.
  - apply R_history.
Qed.

Lemma respects_handleData data : respects R (handleData data).
Proof.
  unfold handleData. apply respects_try_catch.
  - destruct (JSON_parse data) as [parsed|]; [|apply respects_throw].
    apply respects_bind; [apply respects_lift|].
    intros [t|]; [apply respects_dispatch | apply respects_ret].
  - intros _. apply R_console.
Qed.

Lemma respects_processLine line : respects R (processLine line).
Proof.
  unfold processLine.
  destruct (startsWith _ line); [apply respects_ret|].
  destruct (startsWith _ line); [|apply respects_ret].
  destruct (trim _); [apply respects_ret | apply respects_handleData].
Qed.

Lemma respects_processChunk d buffer value :
  respects R (processChunk d buffer value).
Proof.
  unfold processChunk. destruct (decode d value) as [d' decoded].
  apply respects_bind; [|intros _; apply respects_ret].
  apply respects_for_of, respects_processLine.
Qed.

Lemma respects_after_read d buffer r : respects R (after_read d buffer r).
Proof.
  unfold after_read. apply respects_bind; [exact R_resumed|]. intros _.
  destruct r; [|apply respects_ret|apply respects_throw].
  apply respects_bind; [apply respects_processChunk|].
  intros p; apply respects_ret.
Qed.

Lemma respects_after_fetch r : respects R (after_fetch r).
Proof.
  unfold after_fetch. apply respects_bind; [exact R_resumed|]. intros _.
  destruct r as [response|e]; [|apply respects_throw].
  destruct (negb (ok response)); [apply respects_throw|].
  destruct (negb (has_body response));
    [apply respects_throw | apply respects_ret].
Qed.

End Respects.

(** ** The transcript only grows *)

Lemma extends_refl s : extends s s.
Proof. exists []. symmetry; apply app_nil_r. Qed.

Lemma extends_trans s1 s2 s3 : extends s1 s2 -> extends s2 s3 -> extends s1 s3.
Proof.
  intros [a Ha] [b Hb]. exists (a ++ b). rewrite Hb, Ha, app_assoc.
  reflexivity.
Qed.

Lemma same_control_refl s : same_control s s.
Proof. split; reflexivity. Qed.

Lemma same_control_trans s1 s2 s3 :
  same_control s1 s2 -> same_control s2 s3 -> same_control s1 s3.
Proof. intros [A B] [C D]. split; congruence. Qed.

Section Stretches.
Context {rt : Runtime}.

Ltac by_computation :=
  first [ exact extends_refl | exact extends_trans
        | exact same_control_refl | exact same_control_trans
        | intros; unfold respects; intros; simpl;
          first [ solve [split; reflexivity]
                | solve [eexists; reflexivity]
                | solve [exists []; symmetry; apply app_nil_r] ] ].

Lemma extends_after_read d buffer r : respects extends (after_read d buffer r).
Proof.
  apply respects_after_read; by_computation.
Qed.

Lemma extends_after_fetch r : respects extends (after_fetch r).
Proof.
  apply respects_after_fetch; by_computation.
Qed.

Lemma extends_dispatch ty event : respects extends (dispatch ty event).
Proof.
  apply respects_dispatch; by_computation.
Qed.

Lemma extends_catch_clause e : respects extends (catch_clause e).
Proof.
  apply respects_catch_clause; by_computation.
Qed.

Lemma same_control_after_read d buffer r :
  respects same_control (after_read d buffer r).
Proof.
  apply respects_after_read; by_computation.
Qed.

Lemma same_control_after_fetch r : respects same_control (after_fetch r).
Proof.
  apply respects_after_fetch; by_computation.
Qed.

(** A stretch of the [try] block that only appends, followed by the clauses
    it may run into, only appends. *)
Lemma extends_guarded (stretch : M Progress) (s : State) :
  respects extends stretch -> extends s (state (guarded stretch s)).
Proof.
  intros H. unfold guarded. specialize (H s).
  destruct (stretch s) as [[[k|]|e] s']; simpl in *; [exact H|exact H|].
  eapply extends_trans; [exact H|].
  unfold bind. pose proof (extends_catch_clause e s') as Hc.
  destruct (catch_clause e s') as [[[]|e'] s'']; simpl in *; exact Hc.
Qed.

Lemma extends_sendMessage config text s :
  extends s (state (sendMessage config text s)).
Proof.
  unfold sendMessage, prologue, bind, addDisplayMessage, bind; simpl.
  destruct (spread (chatHistory s)); simpl; eexists; reflexivity.
Qed.

Lemma catch_clause_normal e s : fst (catch_clause e s) = Normal tt.
Proof. unfold catch_clause. destruct (eqb_jsstring _ _); reflexivity. Qed.

(** Once an invocation has left the [try] block the session is idle. *)
Lemma guarded_idle (stretch : M Progress) (s : State) :
  pending (guarded stretch s) = None ->
  isStreaming (state (guarded stretch s)) = false
  /\ abortControllerRef (state (guarded stretch s)) = None.
Proof.
  unfold guarded. destruct (stretch s) as [[[k|]|e] s']; simpl.
  - discriminate.
  - split; reflexivity.
  - intros _. unfold bind. pose proof (catch_clause_normal e s') as Hn.
    destruct (catch_clause e s') as [[[]|e'] s'']; simpl in *.
    + split; reflexivity.
    + discriminate.
Qed.

(** While an invocation stays in the [try] block the flag and the handle
    are those its stretch leaves. *)
Lemma guarded_suspended (stretch : M Progress) (s : State) k :
  respects same_control stretch ->
  pending (guarded stretch s) = Some k ->
  same_control s (state (guarded stretch s)).
Proof.
  intros H. unfold guarded. specialize (H s).
  destruct (stretch s) as [[[k'|]|e] s']; simpl in *;
    [intros _; exact H | discriminate | discriminate].
Qed.

End Stretches.

(** ** The life cycle of a session *)

Section Lifecycle.
Context {rt : Runtime}.

Lemma coherent_guarded (stretch : M Progress) (s : State) :
  respects same_control stretch ->
  isStreaming s = true -> abortControllerRef s <> None ->
  coherent (guarded stretch s).
Proof.
  intros H Hs Hr. unfold coherent.
  destruct (pending (guarded stretch s)) as [k|] eqn:E.
  - destruct (guarded_suspended _ H E) as [A B]. rewrite A, B. auto.
  - apply guarded_idle, E.
Qed.

Lemma coherent_step ss a ss' :
  coherent ss -> step ss a = Some ss' -> coherent ss'.
Proof.
  unfold coherent at 1, step. intros H.
  destruct a as [config text| | |r|r]; destruct ss as [s [[|d b]|]];
    simpl in *; intros E; inversion E; subst; clear E;
    try destruct H as [Hs Hr].
  - unfold sendMessage, prologue, bind, addDisplayMessage, bind; simpl.
    destruct (spread (chatHistory s)); simpl; unfold coherent; simpl;
      split; congruence.
  - unfold coherent, stop; simpl.
    destruct (abortControllerRef s); simpl; [split; congruence | tauto].
  - unfold coherent, stop; simpl.
    destruct (abortControllerRef s); simpl; [split; congruence | tauto].
  - unfold coherent, stop; simpl. rewrite Hr. simpl. auto.
  - unfold coherent; simpl; auto.
  - unfold coherent; simpl; auto.
  - unfold coherent; simpl; auto.
  - apply coherent_guarded; auto using same_control_after_fetch.
  - apply coherent_guarded; auto using same_control_after_read.
Qed.

Lemma coherent_run actions : forall ss ss',
  coherent ss -> run ss actions = Some ss' -> coherent ss'.
Proof.
  induction actions as [|a rest IH]; simpl; intros ss ss' H E.
  - inversion E; subst; exact H.
  - destruct (step ss a) as [ss1|] eqn:Ea; [|discriminate].
    eapply IH; [eapply coherent_step; eauto | exact E].
Qed.

Lemma coherent_reachable ss : reachable ss -> coherent ss.
Proof.
  intros [actions E]. eapply coherent_run; [|exact E].
  unfold coherent; simpl; auto.
Qed.

End Lifecycle.

(** C6.  From either [await] of an invocation of [sendMessage], the natural
    end of the stream, a rejection (the cancellation as any other fault), a
    non-2xx status and a missing body each end the invocation; and whatever
    ends it leaves [isStreaming] false and the cancellation handle null. *)
Theorem sendMessage_returns_to_idle {rt : Runtime}
        (ss : Session) (k : Continuation) :
  pending ss = Some k ->
  (forall a ss', step ss a = Some ss' -> pending ss' = None ->
     isStreaming (state ss') = false
     /\ abortControllerRef (state ss') = None)
  /\ (forall d b, k = AwaitRead d b ->
        exists ss', step ss (ReadSettled ReadDone) = Some ss'
                    /\ pending ss' = None)
  /\ (forall d b e, k = AwaitRead d b ->
        exists ss', step ss (ReadSettled (ReadRejected e)) = Some ss'
                    /\ pending ss' = None)
  /\ (forall e, k = AwaitFetch ->
        exists ss', step ss (FetchSettled (FetchRejected e)) = Some ss'
                    /\ pending ss' = None)
  /\ (forall r, k = AwaitFetch -> ok r = false \/ has_body r = false ->
        exists ss', step ss (FetchSettled (FetchResolved r)) = Some ss'
                    /\ pending ss' = None).
Proof.
  destruct ss as [s p]; simpl. intros ->. repeat split.
  - destruct a; destruct k; simpl in H; inversion H; subst; clear H;
      simpl in *; try discriminate;
      match goal with E : pending _ = None |- _ => apply guarded_idle, E end.
  - destruct a; destruct k; simpl in H; inversion H; subst; clear H;
      simpl in *; try discriminate;
      match goal with E : pending _ = None |- _ => apply guarded_idle, E end.
  - intros d b ->. eexists; split; reflexivity.
  - intros d b e ->. eexists; split; [reflexivity|].
    unfold guarded, after_read, bind; simpl. reflexivity.
  - intros e ->. eexists; split; reflexivity.
  - intros r -> Hr. eexists; split; [reflexivity|].
    unfold guarded, after_fetch, bind; simpl.
    destruct Hr as [-> | Hb]; simpl; [reflexivity|].
    destruct (negb (ok r)); simpl; [reflexivity|].
    rewrite Hb; reflexivity.
Qed.

Lemma sendMessage_returns_to_idle_witness :
  pending session_sent = Some AwaitFetch
  /\ forall a ss', step session_sent a = Some ss' -> pending ss' = None ->
       isStreaming (state ss') = false
       /\ abortControllerRef (state ss') = None.
Proof.
  split; [reflexivity|].
  exact (proj1 (sendMessage_returns_to_idle session_sent eq_refl)).
Defined.

(** C7.  Processing an event, and every action on a session other than the
    full clear — a call of [sendMessage] or [stop], a settled fetch, a
    settled read with all the events of its chunk — keeps the transcript as
    it was and appends to it; the full clear leaves it empty. *)
Theorem transcript_append_only {rt : Runtime} :
  (forall ty event s,
      exists suffix,
        displayMessages (snd (dispatch ty event s))
        = displayMessages s ++ suffix)
  /\ (forall ss a ss', step ss a = Some ss' ->
        match a with
        | CallClearMessages => displayMessages (state ss') = []
        | _ => exists suffix,
            displayMessages (state ss') = displayMessages (state ss) ++ suffix
        end).
Proof.
  split.
  - intros ty event s. apply (extends_dispatch ty event s).
  - intros [s p] a ss'.
    destruct a as [config text| | |r|r]; destruct p as [[|d b]|]; simpl;
      intros E; inversion E; subst; clear E; simpl;
      try reflexivity;
      try (unfold stop; destruct (abortControllerRef s); simpl;
           exists []; symmetry; apply app_nil_r).
    + apply extends_sendMessage.
    + apply extends_guarded, extends_after_fetch.
    + apply extends_guarded, extends_after_read.
Qed.

Lemma transcript_append_only_witness :
  exists suffix,
    displayMessages
      (state (show_session
                (step session_sent
                      (FetchSettled (FetchResolved response_500)))))
    = displayMessages (state session_sent) ++ suffix.
Proof.
  exact (proj2 (@transcript_append_only sample_runtime)
               session_sent (FetchSettled (FetchResolved response_500))
               _ eq_refl).
Defined.

(** C9.  In every session the hook can reach, [stop()] called while
    [isStreaming] is false — at the start, or after a stream has completed,
    was aborted or failed — leaves the session exactly as it was. *)
Theorem stop_when_idle_is_noop {rt : Runtime} (ss : Session) :
  reachable ss -> isStreaming (state ss) = false ->
  step ss CallStop = Some ss.
Proof.
  intros Hr Hidle. apply coherent_reachable in Hr. unfold coherent in Hr.
  destruct ss as [s [k|]]; simpl in *.
  - destruct Hr as [Hs _]. congruence.
  - destruct Hr as [_ Href]. unfold stop. rewrite Href. reflexivity.
Qed.

Lemma stop_when_idle_is_noop_witness :
  exists ss, run (@initial_session sample_runtime) stream_actions = Some ss
             /\ isStreaming (state ss) = false
             /\ step ss CallStop = Some ss.
Proof.
  eexists. split; [reflexivity|]. split; [reflexivity|].
  apply stop_when_idle_is_noop; [|reflexivity].
  exists stream_actions. reflexivity.
Defined.

(** ** The history *)

Lemma classify_done_messages (parsed : json) :
  classify parsed = Normal (Some ev_done) ->
  exists finalMessages,
    get_property (lit "messages") parsed = Some finalMessages.
Proof.
  destruct parsed as [| | | | |fields]; try discriminate.
  cbv [classify and_then cbind has_property method_in_request get_property
       type_is_text].
  destruct (lookup (lit "messages") fields) as [v|]; [eauto|].
  destruct (lookup (lit "text") fields);
    destruct (lookup (lit "type") fields) as [[| | |ty| |]|];
    cbn [is_some andb];
    try destruct (eqb_jsstring ty (lit "text")); try discriminate;
    (destruct (lookup (lit "thinking") fields); cbn [is_some];
     try discriminate);
    (destruct (lookup (lit "name") fields);
     destruct (lookup (lit "input") fields); cbn [is_some andb];
     try discriminate);
    (destruct (lookup (lit "tool_id") fields); cbn [is_some];
     try discriminate);
    (destruct (lookup (lit "request") fields) as [[| | | | |r]|];
     cbn [is_some andb]; try discriminate;
     try destruct (lookup (lit "method") r); cbn [is_some];
     try discriminate);
    (destruct (lookup (lit "error") fields); cbn [is_some andb];
     discriminate).
Qed.

(** C3.  A payload that parses to a done event makes the history the value
    of its [messages] field, whatever the history was, and changes nothing
    else. *)
Theorem done_event_replaces_history {rt : Runtime}
        (data : jsstring) (parsed : json) :
  JSON_parse data = Some parsed ->
  classify parsed = Normal (Some ev_done) ->
  exists finalMessages,
    get_property (lit "messages") parsed = Some finalMessages
    /\ forall s,
        handleData data s = (Normal tt, with_chatHistory (Some finalMessages) s)
        /\ chatHistory (snd (handleData data s)) = Some finalMessages.
Proof.
  intros Hparse Hdone.
  destruct (classify_done_messages _ Hdone) as [v Hv].
  exists v. split; [exact Hv|]. intros s.
  assert (E : handleData data s = (Normal tt, with_chatHistory (Some v) s)).
  { unfold handleData, try_catch, bind, lift. rewrite Hparse, Hdone.
    simpl. rewrite Hv. reflexivity. }
  rewrite E. split; reflexivity.
Qed.

Lemma done_event_replaces_history_witness :
  JSON_parse (Runtime := sample_runtime)
    (jsonlit "{'messages':[{'role':'assistant','content':'ok'}]}")
  = Some done_event
  /\ exists finalMessages,
      get_property (lit "messages") done_event = Some finalMessages
      /\ forall s,
          handleData (rt := sample_runtime)
            (jsonlit "{'messages':[{'role':'assistant','content':'ok'}]}") s
          = (Normal tt, with_chatHistory (Some finalMessages) s)
          /\ chatHistory
               (snd (handleData (rt := sample_runtime)
                       (jsonlit
                          "{'messages':[{'role':'assistant','content':'ok'}]}")
                       s))
             = Some finalMessages.
Proof.
  split; [reflexivity|].
  apply (@done_event_replaces_history sample_runtime); reflexivity.
Defined.

(** ** Faults of the request *)

(** C4 (as amended).  When the history is an array and the response has a
    status outside 200-299, [sendMessage] appends the user's entry and then
    exactly one error entry, whose text is 'HTTP error! status: ' followed by
    the status in decimal; the history becomes what it was before the call
    followed by the new user turn; the log is untouched and the session is
    idle again. *)
Theorem http_error_adds_error_entry {rt : Runtime}
        (config : AppConfig) (text : jsstring) (s : State)
        (prior : list json) (response : Response) :
  chatHistory s = Some (JArr prior) ->
  ok response = false ->
  exists ss1 ss2 entry failure,
    step {| state := s; pending := None |} (CallSendMessage config text)
    = Some ss1
    /\ step ss1 (FetchSettled (FetchResolved response)) = Some ss2
    /\ displayMessages (state ss2) = displayMessages s ++ [entry; failure]
    /\ dm_role entry = user
    /\ dm_content entry = Text (Some (JStr text))
    /\ dm_role failure = assistant
    /\ dm_content failure
       = ErrorContent (Some (JStr (lit "HTTP error! status: "
                                     ++ decimal (status response))))
    /\ chatHistory (state ss2) = Some (JArr (prior ++ [userMessage text]))
    /\ httpLogs (state ss2) = httpLogs s
    /\ pending ss2 = None
    /\ isStreaming (state ss2) = false.
Proof.
  intros Hh Hok.
  unfold step; simpl.
  unfold sendMessage, prologue, bind, addDisplayMessage, bind, gets, lift;
    simpl.
  rewrite Hh; simpl.
  unfold guarded, after_fetch, bind; simpl. rewrite Hok; simpl.
  do 4 eexists. split; [reflexivity|]. split; [reflexivity|]. simpl.
  rewrite <- app_assoc. simpl.
  repeat split; reflexivity.
Qed.

Lemma http_error_adds_error_entry_witness :
  chatHistory initial_state = Some (JArr [])
  /\ ok response_500 = false
  /\ exists ss1 ss2 entry failure,
      step (@initial_session sample_runtime)
           (CallSendMessage default_config (lit "hi")) = Some ss1
      /\ step ss1 (FetchSettled (FetchResolved response_500)) = Some ss2
      /\ displayMessages (state ss2) = [] ++ [entry; failure]
      /\ dm_role entry = user
      /\ dm_content entry = Text (Some (JStr (lit "hi")))
      /\ dm_role failure = assistant
      /\ dm_content failure
         = ErrorContent (Some (JStr (lit "HTTP error! status: "
                                       ++ decimal 500)))
      /\ chatHistory (state ss2) = Some (JArr ([] ++ [userMessage (lit "hi")]))
      /\ httpLogs (state ss2) = []
      /\ pending ss2 = None
      /\ isStreaming (state ss2) = false.
Proof.
  split; [reflexivity|]. split; [reflexivity|].
  apply (@http_error_adds_error_entry sample_runtime default_config
           (lit "hi") initial_state [] response_500); reflexivity.
Defined.

(** C4 as stated fails: after a 500 response the history holds the user
    turn that the call added before the request. *)
Lemma http_500_history_not_unchanged :
  ok response_500 = false
  /\ exists ss,
      run (@initial_session sample_runtime)
          [CallSendMessage default_config (lit "hi");
           FetchSettled (FetchResolved response_500)] = Some ss
      /\ chatHistory (state ss) = Some (JArr [userMessage (lit "hi")])
      /\ chatHistory (state ss) <> chatHistory initial_state.
Proof.
  split; [reflexivity|]. eexists. split; [reflexivity|].
  split; [reflexivity|]. discriminate.
Qed.

(** C5.  When the user stops a stream and the read in flight is rejected
    with an [AbortError], exactly one entry is appended to the transcript:
    an assistant entry of the text variant reading '(stopped by user)'; the
    session is idle again. *)
Theorem abort_adds_stopped_entry {rt : Runtime}
        (ss : Session) (d : decoder_state) (buffer : jsstring) (e : JsError) :
  pending ss = Some (AwaitRead d buffer) ->
  name e = lit "AbortError" ->
  exists ss1 ss2 entry,
    step ss CallStop = Some ss1
    /\ step ss1 (ReadSettled (ReadRejected e)) = Some ss2
    /\ displayMessages (state ss2) = displayMessages (state ss) ++ [entry]
    /\ dm_role entry = assistant
    /\ dm_content entry = Text (Some (JStr (lit "(stopped by user)")))
    /\ pending ss2 = None
    /\ isStreaming (state ss2) = false.
Proof.
  destruct ss as [s p]; simpl. intros -> He.
  unfold guarded, after_read, bind, catch_clause; simpl.
  rewrite He, eqb_jsstring_refl.
  do 3 eexists. split; [reflexivity|]. split; [reflexivity|].
  unfold stop; destruct (abortControllerRef s); simpl;
    repeat split; reflexivity.
Qed.

(** ** Malformed lines *)

Section Lines.
Context {rt : Runtime}.

Lemma try_catch_normal (body : M unit) (handler : JsError -> M unit) s :
  (forall e s', fst (handler e s') = Normal tt) ->
  fst (try_catch body handler s) = Normal tt.
Proof.
  intros H. unfold try_catch.
  destruct (body s) as [[[]|e] s']; [reflexivity | apply H].
Qed.

Lemma handleData_normal data s : fst (handleData data s) = Normal tt.
Proof. apply try_catch_normal. reflexivity. Qed.

Lemma processLine_normal line s : fst (processLine line s) = Normal tt.
Proof.
  unfold processLine.
  destruct (startsWith _ line); [reflexivity|].
  destruct (startsWith _ line); [|reflexivity].
  destruct (trim _); [reflexivity | apply handleData_normal].
Qed.

Lemma for_of_processLine_normal lines s :
  fst (for_of lines processLine s) = Normal tt.
Proof.
  revert s; induction lines as [|l lines IH]; intros s; simpl;
    [reflexivity|].
  unfold bind. pose proof (processLine_normal l s) as H.
  destruct (processLine l s) as [[[]|e] s']; simpl in H;
    [apply IH | discriminate].
Qed.

(** The loop goes on to the next line from the state a line leaves. *)
Lemma for_of_processLine_cons line lines s :
  for_of (line :: lines) processLine s
  = for_of lines processLine (snd (processLine line s)).
Proof.
  simpl. unfold bind. pose proof (processLine_normal line s) as H.
  destruct (processLine line s) as [[[]|e] s']; simpl in *;
    [reflexivity | discriminate].
Qed.

Lemma for_of_processLine_app lines1 lines2 s :
  for_of (lines1 ++ lines2) processLine s
  = for_of lines2 processLine (snd (for_of lines1 processLine s)).
Proof.
  revert s; induction lines1 as [|l lines1 IH]; intros s; [reflexivity|].
  rewrite <- app_comm_cons, !for_of_processLine_cons. apply IH.
Qed.

(** A data line is not an event-name line. *)
Lemma data_line_not_event line :
  startsWith (lit "data:") line = true ->
  startsWith (lit "event:") line = false.
Proof.
  change (lit "data:") with (100%N :: lit "ata:").
  change (lit "event:") with (101%N :: lit "vent:").
  destruct line as [|c line]; [discriminate|]. cbn [startsWith].
  destruct (N.eqb_spec 100 c) as [<-|]; [reflexivity|discriminate].
Qed.

(** A read that delivers a chunk never ends the invocation. *)
Lemma read_value_continues (s : State) d buffer value :
  guarded (after_read d buffer (ReadValue value)) s
  = {| state := snd (processChunk d buffer value
                       (with_clock (S (clock s)) s));
       pending := Some (AwaitRead
                          (fst (decode d value))
                          (last (split_newline
                                   (buffer ++ snd (decode d value))) [])) |}.
Proof.
  unfold guarded, after_read, bind, resumed, modify, processChunk, bind.
  destruct (decode d value) as [d' decoded]; simpl.
  pose proof (for_of_processLine_normal
                (removelast (split_newline (buffer ++ decoded)))
                (with_clock (S (clock s)) s)) as H.
  destruct (for_of _ processLine _) as [[[]|e] s']; simpl in *;
    [reflexivity | discriminate].
Qed.

End Lines.

(** C8.  A data line whose payload [JSON.parse] rejects is skipped: the line
    completes normally, its only trace is the payload on the console (none
    at all when the payload is empty), so the transcript, the log, the
    history, the flag and the handle are as before; the loop goes on with
    the following lines from that state, and the read of its chunk leaves
    the invocation waiting for the next read. *)
Theorem malformed_json_line_is_skipped {rt : Runtime} (line : jsstring) :
  startsWith (lit "data:") line = true ->
  JSON_parse (trim (slice 5 line)) = None ->
  forall s,
    let skipped :=
      match trim (slice 5 line) with
      | [] => s
      | data => with_console (console s ++ [data]) s
      end in
    processLine line s = (Normal tt, skipped)
    /\ displayMessages skipped = displayMessages s
    /\ httpLogs skipped = httpLogs s
    /\ chatHistory skipped = chatHistory s
    /\ isStreaming skipped = isStreaming s
    /\ abortControllerRef skipped = abortControllerRef s
    /\ (forall later, for_of (line :: later) processLine s
                      = for_of later processLine skipped)
    /\ (forall d buffer value,
           pending (guarded (after_read d buffer (ReadValue value)) s)
           <> None).
Proof.
  intros Hdata Hparse s skipped.
  assert (E : processLine line s = (Normal tt, skipped)).
  { unfold processLine, skipped.
    rewrite (data_line_not_event _ Hdata), Hdata.
    destruct (trim (slice 5 line)) as [|c data]; [reflexivity|].
    unfold handleData, try_catch. rewrite Hparse. reflexivity. }
  split; [exact E|].
  repeat split;
    try (unfold skipped; destruct (trim (slice 5 line)); reflexivity).
  - intros later. rewrite for_of_processLine_cons, E. reflexivity.
  - intros d buffer value. rewrite read_value_continues. discriminate.
Qed.

Lemma malformed_json_line_is_skipped_witness :
  startsWith (lit "data:") (lit "data: {oops") = true
  /\ JSON_parse (Runtime := sample_runtime) (trim (slice 5 (lit "data: {oops")))
     = None
  /\ processLine (rt := sample_runtime) (lit "data: {oops") initial_state
     = (Normal tt, with_console [lit "{oops"] initial_state).
Proof.
  split; [reflexivity|]. split; [reflexivity|].
  exact (proj1 (@malformed_json_line_is_skipped sample_runtime
                  (lit "data: {oops") eq_refl eq_refl initial_state)).
Defined.

(** ** Lines across chunk boundaries *)

Lemma split_newline_nonempty s : split_newline s <> [].
Proof.
  destruct s as [|c s]; simpl; [discriminate|].
  destruct (N.eqb c newline); [discriminate|].
  destruct (split_newline s); discriminate.
Qed.

Lemma split_newline_parts s :
  split_newline s = complete_lines s ++ [partial_line s].
Proof. apply app_removelast_last, split_newline_nonempty. Qed.

Lemma parts_unique (ls ls' : list jsstring) (p p' : jsstring) :
  ls ++ [p] = ls' ++ [p'] -> ls = ls' /\ p = p'.
Proof. intros H. apply app_inj_tail in H. exact H. Qed.

Lemma split_newline_of_parts s ls p :
  split_newline s = ls ++ [p] -> complete_lines s = ls /\ partial_line s = p.
Proof.
  intros H. rewrite split_newline_parts in H. apply parts_unique, H.
Qed.

(** Cutting a concatenation: the lines of the first part, then those of its
    partial line followed by the second part. *)
Lemma split_newline_app x y :
  split_newline (x ++ y)
  = complete_lines x ++ split_newline (partial_line x ++ y).
Proof.
  induction x as [|c x IH].
  - reflexivity.
  - destruct (@split_newline_of_parts (c :: x)
                (if N.eqb c newline then [] :: complete_lines x
                 else match complete_lines x with
                      | [] => []
                      | l :: ls => (c :: l) :: ls
                      end)
                (if N.eqb c newline then partial_line x
                 else match complete_lines x with
                      | [] => c :: partial_line x
                      | _ :: _ => partial_line x
                      end)) as [Hl Hp].
    { simpl. rewrite (split_newline_parts x).
      destruct (N.eqb c newline); [reflexivity|].
      destruct (complete_lines x); reflexivity. }
    rewrite Hl, Hp. simpl. rewrite IH.
    destruct (N.eqb c newline) eqn:Ec; [reflexivity|].
    destruct (complete_lines x) as [|l ls]; simpl.
    + rewrite Ec. reflexivity.
    + reflexivity.
Qed.

Lemma complete_lines_app x y :
  complete_lines (x ++ y)
  = complete_lines x ++ complete_lines (partial_line x ++ y).
Proof.
  apply (@split_newline_of_parts (x ++ y) _
           (partial_line (partial_line x ++ y))).
  rewrite split_newline_app, (split_newline_parts (partial_line x ++ y)).
  apply app_assoc.
Qed.

Lemma partial_line_app x y :
  partial_line (x ++ y) = partial_line (partial_line x ++ y).
Proof.
  apply (@split_newline_of_parts (x ++ y)
           (complete_lines x ++ complete_lines (partial_line x ++ y)) _).
  rewrite split_newline_app, (split_newline_parts (partial_line x ++ y)).
  apply app_assoc.
Qed.

(** The carried partial line holds no complete line. *)
Lemma complete_lines_partial_line x : complete_lines (partial_line x) = [].
Proof.
  pose proof (complete_lines_app x []) as H.
  rewrite !app_nil_r in H.
  apply (app_inv_head (complete_lines x)). rewrite app_nil_r. symmetry.
  exact H.
Qed.

Lemma partial_line_partial_line x :
  partial_line (partial_line x) = partial_line x.
Proof.
  pose proof (partial_line_app x []) as H. rewrite !app_nil_r in H.
  symmetry; exact H.
Qed.

(** ** Two runs that differ in timing only *)

Lemma same_view_refl s : same_view s s.
Proof. repeat split. Qed.

Lemma same_view_sym s1 s2 : same_view s1 s2 -> same_view s2 s1.
Proof. intros (T & H & L & C). repeat split; congruence. Qed.

Lemma same_view_trans s1 s2 s3 :
  same_view s1 s2 -> same_view s2 s3 -> same_view s1 s3.
Proof.
  intros (T & H & L & C) (T' & H' & L' & C'). repeat split; congruence.
Qed.

Ltac solve_view :=
  intros s1 s2 (T & H & L & C); split; [reflexivity|];
  unfold same_view, transcript, log_payload in *; simpl;
  rewrite ?map_app; simpl; repeat split; congruence.

Section Agree.
Context {rt : Runtime}.

Lemma agree_ret {A} (a : A) : agree (ret a).
Proof. intros s1 s2 H. split; [reflexivity | exact H]. Qed.

Lemma agree_throw {A} e : agree (@throw A e).
Proof. intros s1 s2 H. split; [reflexivity | exact H]. Qed.

Lemma agree_lift {A} (c : completion A) : agree (lift c).
Proof. intros s1 s2 H. split; [reflexivity | exact H]. Qed.

Lemma agree_bind {A B} (c : M A) (k : A -> M B) :
  agree c -> (forall a, agree (k a)) -> agree (bind c k).
Proof.
  intros Hc Hk s1 s2 H. unfold bind. destruct (Hc s1 s2 H) as [E V].
  destruct (c s1) as [r1 t1], (c s2) as [r2 t2]; simpl in *. subst r2.
  destruct r1 as [a|e]; [apply Hk, V | split; [reflexivity | exact V]].
Qed.

Lemma agree_try_catch {A} (c : M A) (h : JsError -> M A) :
  agree c -> (forall e, agree (h e)) -> agree (try_catch c h).
Proof.
  intros Hc Hh s1 s2 H. unfold try_catch. destruct (Hc s1 s2 H) as [E V].
  destruct (c s1) as [r1 t1], (c s2) as [r2 t2]; simpl in *. subst r2.
  destruct r1 as [a|e]; [split; [reflexivity | exact V] | apply Hh, V].
Qed.

Lemma agree_for_of {A} (xs : list A) (f : A -> M unit) :
  (forall x, agree (f x)) -> agree (for_of xs f).
Proof.
  intros Hf. induction xs as [|x xs IH]; simpl.
  - apply agree_ret.
  - apply agree_bind; auto.
Qed.

Lemma agree_append role content :
  agree (addDisplayMessage role content ;; ret tt).
Proof. solve_view. Qed.

Lemma agree_addHttpLog data : agree (addHttpLog data).
Proof. solve_view. Qed.

Lemma agree_setChatHistory v : agree (setChatHistory v).
Proof. solve_view. Qed.

Lemma agree_console_error data : agree (console_error data).
Proof. solve_view. Qed.

Lemma agree_dispatch ty event : agree (dispatch ty event).
Proof.
  destruct ty; simpl;
    auto using agree_append, agree_addHttpLog, agree_setChatHistory.
Qed.

Lemma agree_handleData data : agree (handleData data).
Proof.
  unfold handleData. apply agree_try_catch.
  - destruct (JSON_parse data) as [parsed|]; [|apply agree_throw].
    apply agree_bind; [apply agree_lift|].
    intros [t|]; [apply agree_dispatch | apply agree_ret].
  - intros _. apply agree_console_error.
Qed.

Lemma agree_processLine line : agree (processLine line).
Proof.
  unfold processLine.
  destruct (startsWith _ line); [apply agree_ret|].
  destruct (startsWith _ line); [|apply agree_ret].
  destruct (trim _); [apply agree_ret | apply agree_handleData].
Qed.

Lemma agree_lines lines : agree (for_of lines processLine).
Proof. apply agree_for_of, agree_processLine. Qed.

(** The passing of time is not seen. *)
Lemma same_view_clock n s : same_view (with_clock n s) s.
Proof. repeat split. Qed.

Lemma decode_app d a b :
  decode d (a ++ b)
  = (fst (decode (fst (decode d a)) b),
     snd (decode d a) ++ snd (decode (fst (decode d a)) b)).
Proof.
  revert d; induction a as [|x a IH]; intros d; simpl.
  - destruct (decode d b); reflexivity.
  - destruct (decoder_byte d x) as [d1 o1]. rewrite IH.
    destruct (decode d1 a) as [d2 o2]; simpl.
    destruct (decode d2 b) as [d3 o3]; simpl.
    rewrite app_assoc. reflexivity.
Qed.

End Agree.

Section Chunks.
Context {rt : Runtime}.

Lemma run_app actions1 : forall ss actions2,
  run ss (actions1 ++ actions2)
  = match run ss actions1 with
    | Some ss' => run ss' actions2
    | None => None
    end.
Proof.
  induction actions1 as [|a rest IH]; intros ss actions2; simpl.
  - reflexivity.
  - destruct (step ss a); [apply IH | reflexivity].
Qed.

(** One turn of the read loop, in terms of the parts of the buffer. *)
Lemma step_chunk s d b value :
  step {| state := s; pending := Some (AwaitRead d b) |} (chunk_action value)
  = Some {| state := snd (for_of (complete_lines (b ++ snd (decode d value)))
                            processLine (with_clock (S (clock s)) s));
            pending := Some (AwaitRead
                               (fst (decode d value))
                               (partial_line (b ++ snd (decode d value)))) |}.
Proof.
  simpl. rewrite read_value_continues. unfold processChunk, bind.
  destruct (decode d value) as [d' decoded]; simpl.
  unfold partial_line, complete_lines.
  destruct (for_of _ processLine _) as [[[]|e] s']; reflexivity.
Qed.

(** Reading a stream chunk by chunk, or in one chunk: the decoder and the
    partial line end up the same, and so does what the states show. *)
Lemma run_chunks chunks : forall s d b,
  complete_lines b = [] -> partial_line b = b ->
  exists s1 s2,
    run {| state := s; pending := Some (AwaitRead d b) |}
        (map chunk_action chunks)
    = Some {| state := s1;
              pending := Some (AwaitRead
                (fst (decode d (List.concat chunks)))
                (partial_line (b ++ snd (decode d (List.concat chunks))))) |}
    /\ run {| state := s; pending := Some (AwaitRead d b) |}
           [chunk_action (List.concat chunks)]
       = Some {| state := s2;
                 pending := Some (AwaitRead
                   (fst (decode d (List.concat chunks)))
                   (partial_line (b ++ snd (decode d (List.concat chunks))))) |}
    /\ same_view s1 s2.
Proof.
  induction chunks as [|c cs IH]; intros s d b Hl Hp.
  - exists s, (with_clock (S (clock s)) s). simpl List.concat. simpl map.
    unfold run at 2. rewrite step_chunk. simpl decode. simpl fst; simpl snd.
    rewrite app_nil_r, Hl, Hp. simpl.
    repeat split; apply same_view_sym, same_view_clock.
  - simpl List.concat. simpl map. unfold run at 2. unfold run at 1; fold run.
    rewrite !step_chunk. rewrite decode_app. simpl fst; simpl snd.
    set (o1 := snd (decode d c)). set (d1 := fst (decode d c)).
    set (o2 := snd (decode d1 (List.concat cs))).
    rewrite (app_assoc b o1 o2), (complete_lines_app (b ++ o1) o2),
      (partial_line_app (b ++ o1) o2).
    rewrite for_of_processLine_app.
    set (s' := snd (for_of (complete_lines (b ++ o1)) processLine
                      (with_clock (S (clock s)) s))).
    destruct (IH s' d1 (partial_line (b ++ o1))
                (complete_lines_partial_line _)
                (partial_line_partial_line _)) as (s1 & s2 & E1 & E2 & V).
    fold o2 in E1, E2.
    exists s1. eexists. split; [exact E1|]. split; [reflexivity|].
    unfold run in E2. rewrite step_chunk in E2. fold o2 in E2.
    injection E2 as E2. subst s2.
    eapply same_view_trans; [exact V|].
    apply agree_lines, same_view_clock.
Qed.

End Chunks.

(** C2.  Whatever the way the bytes of a response body are cut into
    chunks, lines cut in the middle included, the stream read to its end
    leaves the same transcript — the same roles and contents in the same
    order — as the same bytes delivered in one chunk; the history, the
    payloads of the log and the console agree as well. *)
Theorem chunking_preserves_transcript {rt : Runtime}
        (ss : Session) (response : Response)
        (chunks : list (list Byte.byte)) :
  pending ss = Some AwaitFetch ->
  ok response = true -> has_body response = true ->
  exists ss1 ss2,
    run ss (FetchSettled (FetchResolved response)
              :: map chunk_action chunks ++ [ReadSettled ReadDone])
    = Some ss1
    /\ run ss [FetchSettled (FetchResolved response);
               chunk_action (List.concat chunks); ReadSettled ReadDone]
       = Some ss2
    /\ transcript (state ss1) = transcript (state ss2)
    /\ same_view (state ss1) (state ss2)
    /\ pending ss1 = None /\ pending ss2 = None.
Proof.
  destruct ss as [s p]; simpl pending. intros -> Hok Hbody.
  unfold run at 2. unfold run at 1; fold run.
  assert (E : step {| state := s; pending := Some AwaitFetch |}
                   (FetchSettled (FetchResolved response))
              = Some {| state := with_clock (S (clock s)) s;
                        pending := Some (AwaitRead decoder_start []) |}).
  { simpl. unfold guarded, after_fetch, bind; simpl.
    rewrite Hok, Hbody. reflexivity. }
  rewrite E, run_app.
  destruct (run_chunks chunks (with_clock (S (clock s)) s) decoder_start
              (b := []) eq_refl eq_refl) as (s1 & s2 & E1 & E2 & V).
  rewrite E1. unfold run in E2.
  destruct (step _ (chunk_action (List.concat chunks))) as [ss2|];
    [|discriminate].
  injection E2 as ->. simpl.
  do 2 eexists. split; [reflexivity|]. split; [reflexivity|]. simpl.
  assert (V' : same_view
                 (with_abortControllerRef None
                    (with_isStreaming false (with_clock (S (clock s1)) s1)))
                 (with_abortControllerRef None
                    (with_isStreaming false (with_clock (S (clock s2)) s2)))).
  { destruct V as (T & H & L & C). repeat split; assumption. }
  split; [apply V'|]. split; [exact V'|]. split; reflexivity.
Qed.

Lemma chunking_preserves_transcript_witness :
  pending session_sent = Some AwaitFetch
  /\ ok response_200 = true /\ has_body response_200 = true
  /\ exists ss1 ss2,
      run session_sent
          (FetchSettled (FetchResolved response_200)
             :: map chunk_action stream_chunks ++ [ReadSettled ReadDone])
      = Some ss1
      /\ run session_sent
             [FetchSettled (FetchResolved response_200);
              chunk_action (List.concat stream_chunks); ReadSettled ReadDone]
         = Some ss2
      /\ transcript (state ss1) = transcript (state ss2)
      /\ same_view (state ss1) (state ss2)
      /\ pending ss1 = None /\ pending ss2 = None.
Proof.
  split; [reflexivity|]. split; [reflexivity|]. split; [reflexivity|].
  apply (@chunking_preserves_transcript sample_runtime session_sent
           response_200 stream_chunks); reflexivity.
Defined.

Lemma abort_adds_stopped_entry_witness :
  pending session_streaming
  = Some (@AwaitRead sample_runtime tt (jsonlit "data: {'thi"))
  /\ name AbortError = lit "AbortError"
  /\ exists ss1 ss2 entry,
      step session_streaming CallStop = Some ss1
      /\ step ss1 (ReadSettled (ReadRejected AbortError)) = Some ss2
      /\ displayMessages (state ss2)
         = displayMessages (state session_streaming) ++ [entry]
      /\ dm_role entry = assistant
      /\ dm_content entry = Text (Some (JStr (lit "(stopped by user)")))
      /\ pending ss2 = None
      /\ isStreaming (state ss2) = false.
Proof.
  split; [reflexivity|]. split; [reflexivity|].
  apply (@abort_adds_stopped_entry sample_runtime session_streaming tt
           (jsonlit "data: {'thi") AbortError); reflexivity.
Defined.

(** ** The request *)

(** C10.  A call of [sendMessage] issues at most one request, exactly one
    when the history is an array; it is a POST to /api/chat/stream whose
    body carries the history with the new user turn.  In that body
    [api_key] is left out when the configured key is the empty string and
    is the configured key otherwise, and [thinking_budget] is the
    configured budget when thinking is enabled and is left out when it is
    not. *)
Theorem request_body_optional_fields {rt : Runtime}
        (config : AppConfig) (text : jsstring) (s : State) :
  exists issued,
    fetches (state (sendMessage config text s)) = fetches s ++ issued
    /\ (forall prior, chatHistory s = Some (JArr prior) ->
          exists r, issued = [r]
                    /\ rq_messages (body r) = prior ++ [userMessage text])
    /\ (forall r, In r issued ->
          url r = lit "/api/chat/stream" /\ method r = lit "POST"
          /\ (apiKey config = [] -> rq_api_key (body r) = None)
          /\ (apiKey config <> [] ->
              rq_api_key (body r) = Some (apiKey config))
          /\ (thinkingEnabled config = true ->
              rq_thinking_budget (body r) = Some (thinkingBudget config))
          /\ (thinkingEnabled config = false ->
              rq_thinking_budget (body r) = None)).
Proof.
  unfold sendMessage, prologue, bind, addDisplayMessage, bind, gets, lift;
    simpl.
  destruct (chatHistory s) as [[| | |h|items|]|]; simpl;
    try (exists []; rewrite app_nil_r; split; [reflexivity|];
         split; [discriminate | intros r []]);
    (eexists; split; [reflexivity|]; split;
     [ intros prior E; try discriminate; try (injection E as ->);
       eexists; split; reflexivity
     | intros r [<-|[]]; simpl; repeat split;
       [ intros ->; reflexivity
       | destruct (apiKey config); [congruence | reflexivity]
       | intros ->; reflexivity
       | intros ->; reflexivity ] ]).
Qed.

Lemma request_body_optional_fields_witness :
  chatHistory initial_state = Some (JArr [])
  /\ apiKey default_config = []
  /\ thinkingEnabled default_config = false
  /\ exists r, fetches (state session_sent) = [r]
               /\ rq_messages (body r) = [userMessage (lit "hi")]
               /\ rq_api_key (body r) = None
               /\ rq_thinking_budget (body r) = None.
Proof.
  split; [reflexivity|]. split; [reflexivity|]. split; [reflexivity|].
  destruct (@request_body_optional_fields sample_runtime default_config
              (lit "hi") initial_state) as (issued & E & Hone & Hall).
  destruct (Hone [] eq_refl) as (r & -> & Hm).
  destruct (Hall r (or_introl eq_refl)) as (_ & _ & Hk & _ & _ & Hb).
  exists r. split; [exact E|]. split; [exact Hm|].
  split; [apply Hk | apply Hb]; reflexivity.
Defined.

(** ** Further behaviour of the decoder *)

(** A primitive [request] makes the fifth condition throw: the object is
    dropped by the handler of line 168 even when a later shape fits. *)
Example primitive_request_is_dropped :
  classify (JObj [(lit "request", JStr (lit "x"));
                  (lit "messages", JArr [])]) = Throw TypeError_in
  /\ spec_classify [(lit "request", JStr (lit "x"));
                    (lit "messages", JArr [])] = Some ev_done.
Proof. split; reflexivity. Qed.

(** Arrays have none of the shapes; on any other value that is not an
    object the first condition throws. *)
Example classify_non_object (parsed : json) :
  match parsed with
  | JObj _ => True
  | JArr _ => classify parsed = Normal None
  | _ => classify parsed = Throw TypeError_in
  end.
Proof. destruct parsed; reflexivity || exact I. Qed.

(** ** A whole stream

    A message is sent; the body arrives in three chunks, the first cut in
    the middle of a line: an event-name line, a thinking event, a blank
    line and the final history.  The transcript holds the user's entry and
    the thinking entry, the history is the one the server sent, nothing was
    reported on the console and the session is idle. *)
Example stream_example :
  exists ss,
    run (@initial_session sample_runtime) stream_actions = Some ss
    /\ transcript (state ss)
       = [(user, Text (Some (JStr (lit "hi"))));
          (assistant, Thinking (Some (JStr (lit "hm"))))]
    /\ chatHistory (state ss) = get_property (lit "messages") done_event
    /\ console (state ss) = []
    /\ isStreaming (state ss) = false
    /\ abortControllerRef (state ss) = None
    /\ pending ss = None.
Proof. eexists. repeat split. Qed.

(** * Further properties of the hook *)

(** ** What a stream does to the transcript, the log and the requests *)

Lemma stream_effect_refl s : stream_effect s s.
Proof.
  exists [], []. rewrite !app_nil_r. repeat split; constructor.
Qed.

Lemma stream_effect_trans s1 s2 s3 :
  stream_effect s1 s2 -> stream_effect s2 s3 -> stream_effect s1 s3.
Proof.
  intros (e1 & l1 & D1 & R1 & L1 & M1 & F1) (e2 & l2 & D2 & R2 & L2 & M2 & F2).
  exists (e1 ++ e2), (l1 ++ l2).
  rewrite D2, D1, L2, L1, F2, F1, !app_assoc.
  repeat split; apply Forall_app; split; assumption.
Qed.

Lemma classify_http_log_request (parsed : json) :
  classify parsed = Normal (Some ev_http_log) ->
  exists r m, get_property (lit "request") parsed = Some (JObj r)
              /\ lookup (lit "method") r = Some m.
Proof.
  destruct parsed as [| | | | |fields]; try discriminate.
  cbv [classify and_then cbind has_property method_in_request get_property
       type_is_text].
  destruct (lookup (lit "request") fields) as [[| | | | |r]|];
    [ | | | | |destruct (lookup (lit "method") r) as [m|] eqn:Hm;
                [intros _; exists r, m; split; [reflexivity | exact Hm]|] | ];
    (destruct (lookup (lit "text") fields);
     destruct (lookup (lit "type") fields) as [[| | |ty| |]|];
     cbn [is_some andb];
     try destruct (eqb_jsstring ty (lit "text")); try discriminate;
     (destruct (lookup (lit "thinking") fields); cbn [is_some];
      try discriminate);
     (destruct (lookup (lit "name") fields);
      destruct (lookup (lit "input") fields); cbn [is_some andb];
      try discriminate);
     (destruct (lookup (lit "tool_id") fields); cbn [is_some];
      try discriminate);
     (destruct (lookup (lit "error") fields); cbn [is_some andb];
      try discriminate);
     (destruct (lookup (lit "messages") fields); cbn [is_some];
      discriminate)).
Qed.

Section StreamEffect.
Context {rt : Runtime}.

Ltac no_entry :=
  exists [], []; simpl; rewrite ?app_nil_r; repeat split; constructor.

Ltac one_entry :=
  eexists [_], []; simpl; rewrite ?app_nil_r;
  repeat split; try reflexivity;
  repeat constructor; simpl; discriminate.

Lemma stream_effect_handleData data s :
  stream_effect s (snd (handleData data s)).
Proof.
  unfold handleData, try_catch, bind, lift.
  destruct (JSON_parse data) as [parsed|]; simpl;
    [|no_entry].
  destruct (classify parsed) as [[ty|]|e] eqn:Hc; simpl;
    try no_entry.
  destruct ty; simpl; try one_entry.
  - exists [], [ {| log_id := fresh_id (clock s);
                    log_timestamp := Date_now (clock s);
                    log_request := get_property (lit "request") parsed;
                    log_response := get_property (lit "response") parsed;
                    log_error := get_property (lit "error") parsed |} ].
    simpl. rewrite app_nil_r. repeat split; try constructor.
    + apply classify_http_log_request, Hc.
    + constructor.
  - no_entry.
Qed.

Lemma stream_effect_processLine line s :
  stream_effect s (snd (processLine line s)).
Proof.
  unfold processLine.
  destruct (startsWith _ line); [no_entry|].
  destruct (startsWith _ line); [|no_entry].
  destruct (trim _); [no_entry|].
  apply stream_effect_handleData.
Qed.

Lemma stream_effect_lines lines : forall s,
  stream_effect s (snd (for_of lines processLine s)).
Proof.
  induction lines as [|l lines IH]; intros s.
  - no_entry.
  - rewrite for_of_processLine_cons.
    eapply stream_effect_trans; [apply stream_effect_processLine | apply IH].
Qed.

Lemma stream_effect_catch_clause e s :
  stream_effect s (snd (catch_clause e s)).
Proof. unfold catch_clause. destruct (eqb_jsstring _ _); one_entry. Qed.

Lemma stream_effect_after_read d buffer r s :
  stream_effect s (snd (after_read d buffer r s)).
Proof.
  destruct r as [value| |e]; try no_entry.
  unfold after_read, bind, resumed, modify, processChunk, bind.
  destruct (decode d value) as [d' decoded]; simpl.
  pose proof (stream_effect_lines
                (removelast (split_newline (buffer ++ decoded)))
                (with_clock (S (clock s)) s)) as H.
  destruct (for_of _ processLine _) as [[[]|e] s']; exact H.
Qed.

Lemma stream_effect_after_fetch r s :
  stream_effect s (snd (after_fetch r s)).
Proof.
  unfold after_fetch, bind, resumed, modify; simpl.
  destruct r as [response|e]; [|no_entry].
  destruct (negb (ok response)); [no_entry|].
  destruct (negb (has_body response)); no_entry.
Qed.

Lemma stream_effect_guarded (stretch : M Progress) s :
  stream_effect s (snd (stretch s)) ->
  stream_effect s (state (guarded stretch s)).
Proof.
  intros H. unfold guarded.
  destruct (stretch s) as [[[k|]|e] s']; simpl in *; try exact H.
  eapply stream_effect_trans; [exact H|]. unfold bind.
  pose proof (stream_effect_catch_clause e s') as Hc.
  destruct (catch_clause e s') as [[[]|e'] s'']; simpl in *; exact Hc.
Qed.

(** A settled fetch or read has the effect of a stream. *)
Lemma stream_effect_settled ss a ss' :
  step ss a = Some ss' ->
  match a with
  | FetchSettled _ | ReadSettled _ => stream_effect (state ss) (state ss')
  | _ => True
  end.
Proof.
  destruct ss as [s p].
  destruct a as [config text| | |r|r]; try exact (fun _ => I);
    destruct p as [[|d b]|]; simpl; intros E; inversion E; subst; clear E.
  - apply stream_effect_guarded, stream_effect_after_fetch.
  - apply stream_effect_guarded, stream_effect_after_read.
Qed.

End StreamEffect.

Section Origins.
Context {rt : Runtime}.

Lemma sendMessage_appends_user_entry config text s :
  exists m,
    displayMessages (state (sendMessage config text s))
    = displayMessages s ++ [m]
    /\ dm_role m = user /\ dm_content m = Text (Some (JStr text))
    /\ httpLogs (state (sendMessage config text s)) = httpLogs s.
Proof.
  unfold sendMessage, prologue, bind, addDisplayMessage, bind, gets, lift;
    simpl.
  destruct (spread (chatHistory s)); simpl; eexists; repeat split.
Qed.

Lemma stop_keeps_lists s :
  displayMessages (stop s) = displayMessages s
  /\ httpLogs (stop s) = httpLogs s
  /\ chatHistory (stop s) = chatHistory s
  /\ fetches (stop s) = fetches s
  /\ isStreaming (stop s) = isStreaming s.
Proof. unfold stop. destruct (abortControllerRef s); repeat split. Qed.

End Origins.

(** X1.  A call of [sendMessage] appends exactly one entry to the
    transcript, the user's text, whether or not a request follows; [stop]
    appends nothing; every entry appended by a settled fetch or read — the
    events of the stream, the stop notice, the error notice — has the role
    assistant or tool, never the user's. *)
Theorem entries_by_origin {rt : Runtime} (ss : Session) (a : Action)
        (ss' : Session) :
  step ss a = Some ss' ->
  match a with
  | CallSendMessage _ text =>
      exists m, displayMessages (state ss') = displayMessages (state ss) ++ [m]
                /\ dm_role m = user
                /\ dm_content m = Text (Some (JStr text))
  | CallStop => displayMessages (state ss') = displayMessages (state ss)
  | CallClearMessages => displayMessages (state ss') = []
  | FetchSettled _ | ReadSettled _ =>
      exists entries,
        displayMessages (state ss') = displayMessages (state ss) ++ entries
        /\ Forall (fun m => dm_role m = assistant \/ dm_role m = tool) entries
  end.
Proof.
  intros E. pose proof (stream_effect_settled _ _ E) as Hs.
  destruct a as [config text| | |r|r].
  - destruct ss as [s [k|]]; simpl in E; [discriminate|].
    inversion E; subst; clear E. simpl.
    destruct (sendMessage_appends_user_entry config text s)
      as (m & D & R & C & _).
    exists m. auto.
  - destruct ss as [s k]; simpl in E. inversion E; subst; simpl.
    apply stop_keeps_lists.
  - destruct ss as [s k]; simpl in E. inversion E; subst; reflexivity.
  - destruct Hs as (entries & logs & D & R & _). exists entries.
    split; [exact D|]. eapply Forall_impl; [|exact R].
    intros m Hm. simpl in Hm. destruct (dm_role m); auto. congruence.
  - destruct Hs as (entries & logs & D & R & _). exists entries.
    split; [exact D|]. eapply Forall_impl; [|exact R].
    intros m Hm. simpl in Hm. destruct (dm_role m); auto. congruence.
Qed.

Lemma entries_by_origin_witness :
  exists entries,
    displayMessages
      (state (show_session
                (step session_streaming
                      (ReadSettled (ReadValue
                         (bytes "nking':'hm','tool_id':'t1'}"
                          ++ [Byte.x0a]))))))
    = displayMessages (state session_streaming) ++ entries
    /\ Forall (fun m => dm_role m = assistant \/ dm_role m = tool) entries.
Proof.
  exact (@entries_by_origin sample_runtime session_streaming
           (ReadSettled (ReadValue (bytes "nking':'hm','tool_id':'t1'}"
                                    ++ [Byte.x0a])))
           _ eq_refl).
Defined.

(** X2.  The exchange log only grows, by entries made from HTTP-log
    events: every action but the full clear keeps the log as it was and
    appends entries whose [request] is an object with a [method]; a call of
    [sendMessage] and [stop] append none; the clear empties it. *)
Theorem logs_append_only {rt : Runtime} (ss : Session) (a : Action)
        (ss' : Session) :
  step ss a = Some ss' ->
  match a with
  | CallClearMessages => httpLogs (state ss') = []
  | CallSendMessage _ _ | CallStop =>
      httpLogs (state ss') = httpLogs (state ss)
  | FetchSettled _ | ReadSettled _ =>
      exists logs, httpLogs (state ss') = httpLogs (state ss) ++ logs
                   /\ Forall log_has_method logs
  end.
Proof.
  intros E. pose proof (stream_effect_settled _ _ E) as Hs.
  destruct a as [config text| | |r|r].
  - destruct ss as [s [k|]]; simpl in E; [discriminate|].
    inversion E; subst; clear E. simpl.
    destruct (sendMessage_appends_user_entry config text s)
      as (m & _ & _ & _ & L). exact L.
  - destruct ss as [s k]; simpl in E. inversion E; subst; simpl.
    apply stop_keeps_lists.
  - destruct ss as [s k]; simpl in E. inversion E; subst; reflexivity.
  - destruct Hs as (entries & logs & _ & _ & L & M & _). eauto.
  - destruct Hs as (entries & logs & _ & _ & L & M & _). eauto.
Qed.

Lemma logs_append_only_witness :
  exists logs,
    httpLogs (state session_logged) = httpLogs (state session_reading) ++ logs
    /\ Forall log_has_method logs.
Proof.
  exact (@logs_append_only exchange_runtime session_reading
           (ReadSettled (ReadValue http_log_chunk)) _ eq_refl).
Defined.

Section LogInvariant.
Context {rt : Runtime}.

Lemma step_logs_well_formed ss a ss' :
  Forall log_has_method (httpLogs (state ss)) ->
  step ss a = Some ss' ->
  Forall log_has_method (httpLogs (state ss')).
Proof.
  intros H E. pose proof (stream_effect_settled _ _ E) as Hs.
  destruct a as [config text| | |r|r].
  - destruct ss as [s [k|]]; simpl in E; [discriminate|].
    inversion E; subst; clear E. simpl in *.
    destruct (sendMessage_appends_user_entry config text s)
      as (m & _ & _ & _ & L). rewrite L. exact H.
  - destruct ss as [s k]; simpl in *. inversion E; subst; simpl.
    destruct (stop_keeps_lists s) as (_ & L & _). rewrite L. exact H.
  - destruct ss as [s k]; simpl in E. inversion E; subst; constructor.
  - destruct Hs as (entries & logs & _ & _ & L & M & _). rewrite L.
    apply Forall_app; auto.
  - destruct Hs as (entries & logs & _ & _ & L & M & _). rewrite L.
    apply Forall_app; auto.
Qed.

Lemma run_logs_well_formed actions : forall ss ss',
  Forall log_has_method (httpLogs (state ss)) ->
  run ss actions = Some ss' ->
  Forall log_has_method (httpLogs (state ss')).
Proof.
  induction actions as [|a rest IH]; simpl; intros ss ss' H E.
  - inversion E; subst; exact H.
  - destruct (step ss a) as [ss1|] eqn:Ea; [|discriminate].
    eapply IH; [eapply step_logs_well_formed; eauto | exact E].
Qed.

End LogInvariant.

(** X3.  In every session the hook can reach, every entry of the exchange
    log has a [request] that is an object with a [method] field: the
    decoder lets no other shape into the log. *)
Theorem reachable_logs_have_method {rt : Runtime} (ss : Session) :
  reachable ss -> Forall log_has_method (httpLogs (state ss)).
Proof.
  intros [actions E]. eapply run_logs_well_formed; [|exact E].
  constructor.
Qed.

Lemma reachable_logs_have_method_witness :
  List.length (httpLogs (state session_logged)) = 1
  /\ Forall log_has_method (httpLogs (state session_logged)).
Proof.
  split; [reflexivity|].
  apply (@reachable_logs_have_method exchange_runtime).
  exists [ CallSendMessage default_config (lit "hi");
           FetchSettled (FetchResolved response_200);
           ReadSettled (ReadValue http_log_chunk) ].
  reflexivity.
Defined.

(** ** The lines a stream processes *)

Lemma complete_lines_cons c s :
  complete_lines (c :: s)
  = if N.eqb c newline then [] :: complete_lines s
    else match complete_lines s with
         | [] => []
         | l :: ls => (c :: l) :: ls
         end.
Proof.
  apply (@split_newline_of_parts (c :: s) _
           (if N.eqb c newline then partial_line s
            else match complete_lines s with
                 | [] => c :: partial_line s
                 | _ :: _ => partial_line s
                 end)).
  simpl. rewrite (split_newline_parts s).
  destruct (N.eqb c newline); [reflexivity|].
  destruct (complete_lines s); reflexivity.
Qed.

(** A text holds a complete line exactly when it holds a newline. *)
Lemma complete_lines_nil_iff s :
  complete_lines s = [] <-> ~ In newline s.
Proof.
  induction s as [|c s IH].
  - split; [intros _ [] | reflexivity].
  - rewrite complete_lines_cons. destruct (N.eqb_spec c newline) as [->|Hc].
    + split; [discriminate | intros H; exfalso; apply H; left; reflexivity].
    + destruct (complete_lines s) as [|l ls].
      * split; [|reflexivity]. intros _ [E|Hin]; [congruence|].
        apply (proj1 IH); [reflexivity | exact Hin].
      * split; [discriminate|]. intros H. exfalso.
        assert (Hs : ~ In newline s) by (intros Hin; apply H; right; exact Hin).
        apply IH in Hs. discriminate.
Qed.

(** What follows the last newline adds no line. *)
Lemma complete_lines_tail x tail :
  ~ In newline tail -> complete_lines (x ++ tail) = complete_lines x.
Proof.
  intros Ht. rewrite complete_lines_app.
  assert (E : complete_lines (partial_line x ++ tail) = []).
  { apply complete_lines_nil_iff. intros Hin. apply in_app_or in Hin.
    destruct Hin as [Hin|Hin]; [|exact (Ht Hin)].
    exact (proj1 (complete_lines_nil_iff _)
                 (complete_lines_partial_line x) Hin). }
  rewrite E. apply app_nil_r.
Qed.

Section WholeStream.
Context {rt : Runtime}.

(** A stream read to its end shows what the loop over the complete lines of
    its whole text shows. *)
Lemma stream_view (s : State) (response : Response)
      (chunks : list (list Byte.byte)) :
  ok response = true -> has_body response = true ->
  exists ss1,
    run {| state := s; pending := Some AwaitFetch |}
        (FetchSettled (FetchResolved response)
           :: map chunk_action chunks ++ [ReadSettled ReadDone])
    = Some ss1
    /\ pending ss1 = None
    /\ same_view (state ss1)
         (snd (for_of (complete_lines
                         (snd (decode decoder_start (List.concat chunks))))
                 processLine s)).
Proof.
  intros Hok Hbody. unfold run; fold run.
  assert (E : step {| state := s; pending := Some AwaitFetch |}
                   (FetchSettled (FetchResolved response))
              = Some {| state := with_clock (S (clock s)) s;
                        pending := Some (AwaitRead decoder_start []) |}).
  { simpl. unfold guarded, after_fetch, bind; simpl.
    rewrite Hok, Hbody. reflexivity. }
  rewrite E, run_app.
  destruct (run_chunks chunks (with_clock (S (clock s)) s) decoder_start
              (b := []) eq_refl eq_refl) as (s1 & s2 & E1 & E2 & V).
  rewrite E1. unfold run in E2. rewrite step_chunk in E2.
  injection E2 as E2. simpl.
  eexists. split; [reflexivity|]. split; [reflexivity|]. simpl.
  apply same_view_trans with (s2 := s1); [repeat split|].
  eapply same_view_trans; [exact V|]. subst s2. simpl app.
  apply agree_lines.
  eapply same_view_trans; apply same_view_clock.
Qed.

End WholeStream.

(** X4.  A stream read to its natural end shows exactly what processing the
    newline-terminated lines of its whole decoded text, in order, shows:
    the same transcript, history, log payloads and console.  What follows
    the last newline is never processed. *)
Theorem stream_processes_complete_lines {rt : Runtime}
        (ss : Session) (response : Response)
        (chunks : list (list Byte.byte)) :
  pending ss = Some AwaitFetch ->
  ok response = true -> has_body response = true ->
  exists ss1,
    run ss (FetchSettled (FetchResolved response)
              :: map chunk_action chunks ++ [ReadSettled ReadDone])
    = Some ss1
    /\ pending ss1 = None
    /\ same_view (state ss1)
         (snd (for_of (complete_lines
                         (snd (decode decoder_start (List.concat chunks))))
                 processLine (state ss))).
Proof.
  destruct ss as [s p]; simpl. intros -> Hok Hbody.
  exact (@stream_view rt s response chunks Hok Hbody).
Qed.

Lemma stream_processes_complete_lines_witness :
  pending session_sent = Some AwaitFetch
  /\ ok response_200 = true /\ has_body response_200 = true
  /\ exists ss1 : @Session sample_runtime,
      run session_sent
          (FetchSettled (FetchResolved response_200)
             :: map chunk_action stream_chunks ++ [ReadSettled ReadDone])
      = Some ss1
      /\ pending ss1 = None
      /\ same_view (state ss1)
           (snd (for_of
                   (complete_lines
                      (snd (decode (rt := sample_runtime) decoder_start
                              (List.concat stream_chunks))))
                   (@processLine sample_runtime) (state session_sent))).
Proof.
  split; [reflexivity|]. split; [reflexivity|]. split; [reflexivity|].
  apply (@stream_processes_complete_lines sample_runtime session_sent
           response_200 stream_chunks); reflexivity.
Defined.

(** X5.  A last line without its newline is lost: two bodies whose decoded
    texts differ only by what follows the last newline of the longer one
    leave the same transcript, history, log payloads and console. *)
Theorem unterminated_last_line_is_dropped {rt : Runtime}
        (ss : Session) (response : Response)
        (chunks chunks' : list (list Byte.byte)) (tail : jsstring) :
  pending ss = Some AwaitFetch ->
  ok response = true -> has_body response = true ->
  snd (decode decoder_start (List.concat chunks'))
  = snd (decode decoder_start (List.concat chunks)) ++ tail ->
  ~ In newline tail ->
  exists ss1 ss2,
    run ss (FetchSettled (FetchResolved response)
              :: map chunk_action chunks ++ [ReadSettled ReadDone])
    = Some ss1
    /\ run ss (FetchSettled (FetchResolved response)
                 :: map chunk_action chunks' ++ [ReadSettled ReadDone])
       = Some ss2
    /\ same_view (state ss1) (state ss2)
    /\ transcript (state ss1) = transcript (state ss2).
Proof.
  destruct ss as [s p]; simpl pending. intros -> Hok Hbody Htext Htail.
  destruct (@stream_view rt s response chunks Hok Hbody)
    as (ss1 & E1 & _ & V1).
  destruct (@stream_view rt s response chunks' Hok Hbody)
    as (ss2 & E2 & _ & V2).
  rewrite Htext, (@complete_lines_tail _ tail Htail) in V2.
  exists ss1, ss2. split; [exact E1|]. split; [exact E2|].
  assert (V : same_view (state ss1) (state ss2)).
  { eapply same_view_trans; [exact V1 | apply same_view_sym, V2]. }
  split; [exact V | apply V].
Qed.

Lemma no_newline_check (s : jsstring) :
  existsb (N.eqb newline) s = false -> ~ In newline s.
Proof.
  intros H Hin. assert (E : existsb (N.eqb newline) s = true).
  { apply existsb_exists. exists newline. split; [exact Hin|].
    apply N.eqb_refl. }
  congruence.
Qed.

Lemma unterminated_last_line_is_dropped_witness :
  pending session_sent = Some AwaitFetch
  /\ ok response_200 = true /\ has_body response_200 = true
  /\ exists ss1 ss2,
      run session_sent
          (FetchSettled (FetchResolved response_200)
             :: map chunk_action stream_chunks ++ [ReadSettled ReadDone])
      = Some ss1
      /\ run session_sent
             (FetchSettled (FetchResolved response_200)
                :: map chunk_action unterminated_chunks
                ++ [ReadSettled ReadDone])
         = Some ss2
      /\ same_view (state ss1) (state ss2)
      /\ transcript (state ss1) = transcript (state ss2).
Proof.
  split; [reflexivity|]. split; [reflexivity|]. split; [reflexivity|].
  apply (@unterminated_last_line_is_dropped sample_runtime session_sent
           response_200 stream_chunks unterminated_chunks
           (jsonlit "data: {'thinking':'hm','tool_id':'t1'}"));
    try reflexivity.
  apply no_newline_check. reflexivity.
Defined.

(** ** Faults and cancellation *)

(** X6.  A chunk never ends the invocation, whatever events it carries, an
    error event included: the session goes on to await the next read, with
    the decoder advanced and the text after the last newline as the partial
    line; [isStreaming], the cancellation handle and the requests issued
    are as before. *)
Theorem chunk_never_ends_stream {rt : Runtime}
        (ss : Session) (d : decoder_state) (buffer : jsstring)
        (value : list Byte.byte) :
  pending ss = Some (AwaitRead d buffer) ->
  exists ss',
    step ss (ReadSettled (ReadValue value)) = Some ss'
    /\ pending ss'
       = Some (AwaitRead (fst (decode d value))
                         (partial_line (buffer ++ snd (decode d value))))
    /\ isStreaming (state ss') = isStreaming (state ss)
    /\ abortControllerRef (state ss') = abortControllerRef (state ss)
    /\ fetches (state ss') = fetches (state ss).
Proof.
  destruct ss as [s p]; simpl pending; simpl state. intros ->.
  pose proof (step_chunk s d buffer value) as E. unfold chunk_action in E.
  eexists. split; [exact E|]. split; [reflexivity|]. simpl state.
  pose proof (stream_effect_lines
                (complete_lines (buffer ++ snd (decode d value)))
                (with_clock (S (clock s)) s))
    as (entries & logs & _ & _ & _ & _ & F).
  pose proof (same_control_after_read d buffer (ReadValue value) s) as C.
  unfold after_read, bind, resumed, modify, processChunk, bind in C.
  destruct (decode d value) as [d' decoded]; simpl in *.
  unfold complete_lines in *.
  pose proof (for_of_processLine_normal
                (removelast (split_newline (buffer ++ decoded)))
                (with_clock (S (clock s)) s)) as Hn.
  destruct (for_of _ processLine _) as [[[]|e] s'];
    simpl in *; [|discriminate].
  destruct C as [C1 C2]. repeat split; assumption.
Qed.

Lemma chunk_never_ends_stream_witness :
  pending session_reading = Some (@AwaitRead exchange_runtime tt [])
  /\ exists ss' : @Session exchange_runtime,
      step session_reading (ReadSettled (ReadValue http_log_chunk)) = Some ss'
      /\ pending ss'
         = Some (AwaitRead
                   (fst (decode (rt := exchange_runtime) tt http_log_chunk))
                   (partial_line
                      ([] ++ snd (decode (rt := exchange_runtime) tt
                                    http_log_chunk))))
      /\ isStreaming (state ss') = isStreaming (state session_reading)
      /\ abortControllerRef (state ss')
         = abortControllerRef (state session_reading)
      /\ fetches (state ss') = fetches (state session_reading).
Proof.
  split; [reflexivity|].
  apply (@chunk_never_ends_stream exchange_runtime session_reading tt []
           http_log_chunk).
  reflexivity.
Defined.

(** X7.  A rejection of the awaited fetch or read ends the invocation with
    exactly one more entry, from the assistant: the text '(stopped by
    user)' when the error is named AbortError — also when the request is
    aborted before any response — and otherwise an error entry carrying the
    error's message.  The history and the log are untouched and the session
    is idle. *)
Theorem rejection_adds_one_entry {rt : Runtime}
        (ss : Session) (k : Continuation) (e : JsError) :
  pending ss = Some k ->
  exists ss' entry,
    step ss (rejection k e) = Some ss'
    /\ displayMessages (state ss') = displayMessages (state ss) ++ [entry]
    /\ dm_role entry = assistant
    /\ dm_content entry
       = (if eqb_jsstring (name e) (lit "AbortError")
          then Text (Some (JStr (lit "(stopped by user)")))
          else ErrorContent (Some (JStr (message e))))
    /\ chatHistory (state ss') = chatHistory (state ss)
    /\ httpLogs (state ss') = httpLogs (state ss)
    /\ pending ss' = None
    /\ isStreaming (state ss') = false
    /\ abortControllerRef (state ss') = None.
Proof.
  destruct ss as [s p]; simpl. intros ->.
  destruct k as [|d b]; simpl;
    unfold guarded, after_fetch, after_read, bind, catch_clause; simpl;
    destruct (eqb_jsstring (name e) (lit "AbortError")); simpl;
    do 2 eexists; repeat split.
Qed.

Lemma rejection_adds_one_entry_witness :
  pending session_sent = Some AwaitFetch
  /\ exists (ss' : @Session sample_runtime) entry,
      step session_sent (FetchSettled (FetchRejected NetworkError)) = Some ss'
      /\ displayMessages (state ss')
         = displayMessages (state session_sent) ++ [entry]
      /\ dm_role entry = assistant
      /\ dm_content entry
         = (if eqb_jsstring (name NetworkError) (lit "AbortError")
            then Text (Some (JStr (lit "(stopped by user)")))
            else ErrorContent (Some (JStr (message NetworkError))))
      /\ chatHistory (state ss') = chatHistory (state session_sent)
      /\ httpLogs (state ss') = httpLogs (state session_sent)
      /\ pending ss' = None
      /\ isStreaming (state ss') = false
      /\ abortControllerRef (state ss') = None.
Proof.
  split; [reflexivity|].
  apply (@rejection_adds_one_entry sample_runtime session_sent AwaitFetch
           NetworkError).
  reflexivity.
Defined.

(** X8.  A response with a status in 200-299 but no body is a fault of its
    own: one error entry reading 'No response body' is appended, nothing is
    read, and the session is idle. *)
Theorem missing_body_adds_error_entry {rt : Runtime}
        (ss : Session) (response : Response) :
  pending ss = Some AwaitFetch ->
  ok response = true -> has_body response = false ->
  exists ss' entry,
    step ss (FetchSettled (FetchResolved response)) = Some ss'
    /\ displayMessages (state ss') = displayMessages (state ss) ++ [entry]
    /\ dm_role entry = assistant
    /\ dm_content entry
       = ErrorContent (Some (JStr (lit "No response body")))
    /\ chatHistory (state ss') = chatHistory (state ss)
    /\ pending ss' = None
    /\ isStreaming (state ss') = false.
Proof.
  destruct ss as [s p]; simpl. intros -> Hok Hbody.
  unfold guarded, after_fetch, bind, catch_clause; simpl.
  rewrite Hok, Hbody; simpl.
  do 2 eexists; repeat split.
Qed.

Lemma missing_body_adds_error_entry_witness :
  pending session_sent = Some AwaitFetch
  /\ ok response_204 = true /\ has_body response_204 = false
  /\ exists (ss' : @Session sample_runtime) entry,
      step session_sent (FetchSettled (FetchResolved response_204)) = Some ss'
      /\ displayMessages (state ss')
         = displayMessages (state session_sent) ++ [entry]
      /\ dm_role entry = assistant
      /\ dm_content entry
         = ErrorContent (Some (JStr (lit "No response body")))
      /\ chatHistory (state ss') = chatHistory (state session_sent)
      /\ pending ss' = None
      /\ isStreaming (state ss') = false.
Proof.
  split; [reflexivity|]. split; [reflexivity|]. split; [reflexivity|].
  apply (@missing_body_adds_error_entry sample_runtime session_sent
           response_204); reflexivity.
Defined.

(** X9.  [stop()] during a stream only marks the controller as aborted.  It
    does not end the invocation, does not reset [isStreaming] and adds
    nothing to the transcript, the log or the history — the session leaves
    the streaming state only when the awaited promise settles — and a
    second [stop()] changes nothing more. *)
Theorem stop_alone_keeps_streaming {rt : Runtime}
        (ss : Session) (k : Continuation) :
  reachable ss -> pending ss = Some k ->
  exists ss',
    step ss CallStop = Some ss'
    /\ pending ss' = Some k
    /\ isStreaming (state ss') = true
    /\ abortControllerRef (state ss') = Some {| aborted := true |}
    /\ displayMessages (state ss') = displayMessages (state ss)
    /\ httpLogs (state ss') = httpLogs (state ss)
    /\ chatHistory (state ss') = chatHistory (state ss)
    /\ step ss' CallStop = Some ss'.
Proof.
  intros Hr Hp. apply coherent_reachable in Hr. unfold coherent in Hr.
  rewrite Hp in Hr. destruct Hr as [Hs Href].
  destruct ss as [s p]; simpl in *. subst p.
  unfold stop. destruct (abortControllerRef s) as [c|]; [|congruence].
  eexists. split; [reflexivity|]. simpl. repeat split. exact Hs.
Qed.

Lemma stop_alone_keeps_streaming_witness :
  pending session_streaming
  = Some (@AwaitRead sample_runtime tt (jsonlit "data: {'thi"))
  /\ exists ss' : @Session sample_runtime,
      step session_streaming CallStop = Some ss'
      /\ pending ss'
         = Some (@AwaitRead sample_runtime tt (jsonlit "data: {'thi"))
      /\ isStreaming (state ss') = true
      /\ abortControllerRef (state ss') = Some {| aborted := true |}
      /\ displayMessages (state ss')
         = displayMessages (state session_streaming)
      /\ httpLogs (state ss') = httpLogs (state session_streaming)
      /\ chatHistory (state ss') = chatHistory (state session_streaming)
      /\ step ss' CallStop = Some ss'.
Proof.
  split; [reflexivity|].
  apply (@stop_alone_keeps_streaming sample_runtime session_streaming
           (@AwaitRead sample_runtime tt (jsonlit "data: {'thi")));
    [|reflexivity].
  exists [ CallSendMessage default_config (lit "hi");
           FetchSettled (FetchResolved response_200);
           ReadSettled (ReadValue (bytes "data: {'thi")) ].
  reflexivity.
Defined.

(** ** The history across calls *)

Section Turns.
Context {rt : Runtime}.

(** A call on a history that is an array issues one request and records
    the turn. *)
Lemma sendMessage_on_array config text s prior :
  chatHistory s = Some (JArr prior) ->
  exists request,
    fetches (state (sendMessage config text s)) = fetches s ++ [request]
    /\ rq_messages (body request) = prior ++ [userMessage text]
    /\ chatHistory (state (sendMessage config text s))
       = Some (JArr (prior ++ [userMessage text]))
    /\ pending (sendMessage config text s) = Some AwaitFetch.
Proof.
  intros Hh.
  unfold sendMessage, prologue, bind, addDisplayMessage, bind, gets, lift;
    simpl.
  rewrite Hh; simpl. eexists; repeat split.
Qed.

(** A fault of the fetch ends the invocation and leaves the history and
    the requests as they are. *)
Lemma fetch_fault_keeps_history r s :
  fetch_faults r = true ->
  pending (guarded (after_fetch r) s) = None
  /\ chatHistory (state (guarded (after_fetch r) s)) = chatHistory s
  /\ fetches (state (guarded (after_fetch r) s)) = fetches s.
Proof.
  intros Hf. unfold guarded, after_fetch, bind, catch_clause; simpl.
  destruct r as [response|e]; simpl in *.
  - destruct (negb (ok response)); simpl in *;
      [repeat split|]. rewrite Hf; simpl. repeat split.
  - destruct (eqb_jsstring (name e) (lit "AbortError")); repeat split.
Qed.

End Turns.

(** X10.  A turn whose request failed stays in the history: when a call of
    [sendMessage] ends in a fault of the fetch (a rejection, a status
    outside 200-299 or a missing body), the next call sends the history as
    it was before the first call followed by both user turns. *)
Theorem retry_resends_failed_turn {rt : Runtime}
        (s : State) (prior : list json) (config1 config2 : AppConfig)
        (text1 text2 : jsstring) (r : FetchResult) :
  chatHistory s = Some (JArr prior) ->
  fetch_faults r = true ->
  exists ss request1 request2,
    run {| state := s; pending := None |}
        [ CallSendMessage config1 text1; FetchSettled r;
          CallSendMessage config2 text2 ] = Some ss
    /\ fetches (state ss) = fetches s ++ [request1; request2]
    /\ rq_messages (body request1) = prior ++ [userMessage text1]
    /\ rq_messages (body request2)
       = prior ++ [userMessage text1; userMessage text2]
    /\ chatHistory (state ss)
       = Some (JArr (prior ++ [userMessage text1; userMessage text2]))
    /\ pending ss = Some AwaitFetch.
Proof.
  intros Hh Hf.
  destruct (sendMessage_on_array config1 text1 s Hh)
    as (request1 & F1 & M1 & H1 & P1).
  destruct (fetch_fault_keeps_history r
              (state (sendMessage config1 text1 s)) Hf) as (P2 & H2 & F2).
  rewrite H1 in H2.
  destruct (sendMessage_on_array config2 text2 _ H2)
    as (request2 & F3 & M3 & H3 & P3).
  rewrite F2, F1 in F3. rewrite <- app_assoc in F3, M3, H3. simpl in *.
  unfold run. cbn [step pending state].
  destruct (sendMessage config1 text1 s) as [s1 p1] eqn:E1.
  simpl in P1. subst p1. cbn [step pending state].
  simpl in P2. destruct (guarded (after_fetch r) s1) as [s2 p2] eqn:E2.
  simpl in *. subst p2. cbn [step pending state].
  rewrite E2 in F3, P3, H3. simpl in F3, P3, H3.
  exists (sendMessage config2 text2 s2), request1, request2.
  repeat split; assumption.
Qed.

Lemma retry_resends_failed_turn_witness :
  chatHistory initial_state = Some (JArr [])
  /\ fetch_faults (FetchResolved response_500) = true
  /\ exists (ss : @Session sample_runtime) request1 request2,
      run {| state := initial_state; pending := None |}
          [ CallSendMessage default_config (lit "hi");
            FetchSettled (FetchResolved response_500);
            CallSendMessage default_config (lit "again") ] = Some ss
      /\ fetches (state ss) = [] ++ [request1; request2]
      /\ rq_messages (body request1) = [] ++ [userMessage (lit "hi")]
      /\ rq_messages (body request2)
         = [] ++ [userMessage (lit "hi"); userMessage (lit "again")]
      /\ chatHistory (state ss)
         = Some (JArr ([] ++ [userMessage (lit "hi");
                              userMessage (lit "again")]))
      /\ pending ss = Some AwaitFetch.
Proof.
  split; [reflexivity|]. split; [reflexivity|].
  apply (@retry_resends_failed_turn sample_runtime initial_state []
           default_config default_config (lit "hi") (lit "again")
           (FetchResolved response_500)); reflexivity.
Defined.

(** X11.  When the history is neither an array nor a string — a done event
    may set it to any value of its [messages] field, [null] or a number
    say — a call of [sendMessage] appends the user's entry and stops there:
    no request is issued, the history, [isStreaming] and the handle stay
    as they were, and no invocation is in flight. *)
Theorem non_iterable_history_blocks_send {rt : Runtime}
        (config : AppConfig) (text : jsstring) (s : State) :
  iterable (chatHistory s) = false ->
  exists entry,
    sendMessage config text s
    = {| state := with_displayMessages (displayMessages s ++ [entry])
                    (with_clock (S (clock s)) s);
         pending := None |}
    /\ dm_role entry = user
    /\ dm_content entry = Text (Some (JStr text))
    /\ fetches (state (sendMessage config text s)) = fetches s
    /\ chatHistory (state (sendMessage config text s)) = chatHistory s
    /\ isStreaming (state (sendMessage config text s)) = isStreaming s.
Proof.
  intros Hi.
  unfold sendMessage, prologue, bind, addDisplayMessage, bind, gets, lift;
    simpl.
  destruct (chatHistory s) as [[| | | | |]|] eqn:E; simpl in *;
    try discriminate; eexists; repeat split; exact E.
Qed.

Lemma non_iterable_history_blocks_send_witness :
  iterable (chatHistory state_null_history) = false
  /\ exists entry,
      sendMessage (rt := sample_runtime) default_config (lit "hi")
                  state_null_history
      = {| state := with_displayMessages
                      (displayMessages state_null_history ++ [entry])
                      (with_clock (S (clock state_null_history))
                                  state_null_history);
           pending := None |}
      /\ dm_role entry = user
      /\ dm_content entry = Text (Some (JStr (lit "hi")))
      /\ fetches (state (sendMessage (rt := sample_runtime) default_config
                           (lit "hi") state_null_history))
         = fetches state_null_history
      /\ chatHistory (state (sendMessage (rt := sample_runtime)
                               default_config (lit "hi") state_null_history))
         = chatHistory state_null_history
      /\ isStreaming (state (sendMessage (rt := sample_runtime)
                               default_config (lit "hi") state_null_history))
         = isStreaming state_null_history.
Proof.
  split; [reflexivity|].
  apply (@non_iterable_history_blocks_send sample_runtime default_config
           (lit "hi") state_null_history).
  reflexivity.
Defined.

(** ** What a line can add *)

Section Records.
Context {rt : Runtime}.




End Records.



(** ** The full clear *)

(** X13.  [clearMessages] empties the transcript, the log and the history
    at once and touches nothing else: an invocation in flight stays in
    flight with [isStreaming] and its handle as they were.  On an idle
    session the next call of [sendMessage] then sends the new user turn
    alone. *)
Theorem clear_forgets_conversation {rt : Runtime}
        (ss : Session) (config : AppConfig) (text : jsstring) :
  exists ss1,
    step ss CallClearMessages = Some ss1
    /\ displayMessages (state ss1) = []
    /\ httpLogs (state ss1) = []
    /\ chatHistory (state ss1) = Some (JArr [])
    /\ pending ss1 = pending ss
    /\ isStreaming (state ss1) = isStreaming (state ss)
    /\ abortControllerRef (state ss1) = abortControllerRef (state ss)
    /\ (pending ss = None ->
        exists ss2 request,
          step ss1 (CallSendMessage config text) = Some ss2
          /\ fetches (state ss2) = fetches (state ss) ++ [request]
          /\ rq_messages (body request) = [userMessage text]
          /\ transcript (state ss2) = [(user, Text (Some (JStr text)))]
          /\ chatHistory (state ss2) = Some (JArr [userMessage text])).
Proof.
  destruct ss as [s p]. eexists. split; [reflexivity|]. simpl.
  repeat split. intros ->. do 2 eexists. repeat split.
Qed.

Lemma clear_forgets_conversation_witness :
  pending (@initial_session sample_runtime) = None
  /\ exists ss2 request,
      step (show_session (step (@initial_session sample_runtime)
                               CallClearMessages))
           (CallSendMessage default_config (lit "hi")) = Some ss2
      /\ fetches (state ss2) = [request]
      /\ rq_messages (body request) = [userMessage (lit "hi")].
Proof.
  split; [reflexivity|].
  destruct (@clear_forgets_conversation sample_runtime initial_session
              default_config (lit "hi"))
    as (ss1 & E1 & _ & _ & _ & _ & _ & _ & Hsend).
  injection E1 as <-.
  destruct (Hsend eq_refl) as (ss2 & request & E2 & F & M & _).
  exists ss2, request. repeat split; assumption.
Defined.

(** ** Requests *)

Section Requests.
Context {rt : Runtime}.

Lemma step_fetches ss a ss' :
  step ss a = Some ss' ->
  List.length (fetches (state ss'))
  <= List.length (fetches (state ss)) + sends [a].
Proof.
  intros E. pose proof (stream_effect_settled _ _ E) as Hs.
  destruct a as [config text| | |r|r]; unfold sends; simpl.
  - destruct ss as [s [k|]]; simpl in E; [discriminate|].
    inversion E; subst; clear E. simpl.
    unfold sendMessage, prologue, bind, addDisplayMessage, bind, gets, lift;
      simpl.
    destruct (spread (chatHistory s)); simpl; rewrite ?length_app; simpl; lia.
  - destruct ss as [s k]; simpl in E. inversion E; subst; simpl.
    destruct (stop_keeps_lists s) as (_ & _ & _ & F & _). rewrite F. lia.
  - destruct ss as [s k]; simpl in E. inversion E; subst; simpl. lia.
  - destruct Hs as (entries & logs & _ & _ & _ & _ & F). rewrite F. lia.
  - destruct Hs as (entries & logs & _ & _ & _ & _ & F). rewrite F. lia.
Qed.

Lemma sends_cons a actions : sends (a :: actions) = sends [a] + sends actions.
Proof. unfold sends. simpl. destruct a; reflexivity. Qed.

End Requests.

(** X14.  The hook issues requests only in calls of [sendMessage], at most
    one per call: along any run, the requests issued number at most the
    calls made.  Neither an event, nor a fault, nor [stop], nor the clear
    ever sends or resends anything. *)
Theorem requests_at_most_sends {rt : Runtime}
        (actions : list Action) (ss ss' : Session) :
  run ss actions = Some ss' ->
  List.length (fetches (state ss'))
  <= List.length (fetches (state ss)) + sends actions.
Proof.
  revert ss. induction actions as [|a rest IH]; simpl; intros ss E.
  - inversion E; subst. unfold sends; simpl. lia.
  - destruct (step ss a) as [ss1|] eqn:Ea; [|discriminate].
    pose proof (step_fetches _ _ Ea) as H1.
    specialize (IH _ E). rewrite sends_cons. lia.
Qed.

Lemma requests_at_most_sends_witness :
  exists ss',
    run (@initial_session sample_runtime) stream_actions = Some ss'
    /\ List.length (fetches (state ss'))
       <= List.length (fetches (state (@initial_session sample_runtime)))
          + sends stream_actions.
Proof.
  eexists. split; [reflexivity|].
  apply (@requests_at_most_sends sample_runtime stream_actions).
  reflexivity.
Defined.

(** * Properties of the interface around the hook *)

(** ** Trimming *)

Lemma trimStart_suffix s : exists p, s = p ++ trimStart s.
Proof.
  induction s as [|c s [p IH]]; [exists []; reflexivity|].
  simpl. destruct (is_js_space c).
  - exists (c :: p). simpl. f_equal. exact IH.
  - exists []. reflexivity.
Qed.

Lemma trimStart_head s c r :
  trimStart s = c :: r -> is_js_space c = false.
Proof.
  induction s as [|x s IH]; simpl; [discriminate|].
  destruct (is_js_space x) eqn:E; [exact IH|].
  intros H. injection H as <- _. exact E.
Qed.

Lemma trimStart_fixed s :
  match s with [] => True | c :: _ => is_js_space c = false end ->
  trimStart s = s.
Proof. destruct s as [|c s]; simpl; [reflexivity|]. intros ->. reflexivity. Qed.

Lemma trimStart_idempotent s : trimStart (trimStart s) = trimStart s.
Proof.
  apply trimStart_fixed. destruct (trimStart s) as [|c r] eqn:E; [exact I|].
  exact (trimStart_head _ E).
Qed.

(** Trimming a trimmed string changes nothing. *)
Lemma trim_idempotent s : trim (trim s) = trim s.
Proof.
  unfold trim. remember (trimStart s) as a eqn:Ea.
  remember (rev (trimStart (rev a))) as b eqn:Eb.
  assert (Hb : trimStart b = b).
  { apply trimStart_fixed. destruct b as [|c b']; [exact I|].
    destruct (trimStart_suffix (rev a)) as [p Hp].
    assert (Ha : a = (c :: b') ++ rev p).
    { rewrite Eb, <- rev_app_distr, <- Hp. symmetry. apply rev_involutive. }
    rewrite Ea in Ha. simpl in Ha. exact (@trimStart_head s _ _ Ha). }
  rewrite Hb, Eb, rev_involutive, trimStart_idempotent. reflexivity.
Qed.

(** ** The authentication gate *)

(** X15.  After a validation, a message is handed to [sendMessage] exactly
    when the validation request resolved with a status in 200-299 and a
    body whose [valid] is truthy.  In every other case the banner is set:
    to the server's [error] when that is truthy, to 'Authentication failed'
    when the server declared the key invalid without one, and to 'Failed to
    validate authentication' when the call itself failed, whatever the
    message the API module threw. *)
Theorem auth_gate (settled : FetchResult) (parsed_body : completion json)
        (message : jsstring) :
  (handleSendMessage (validate settled parsed_body) message = Some message
   <-> exists response result,
         settled = FetchResolved response /\ ok response = true
         /\ parsed_body = Normal result
         /\ js_truthy (get_property (lit "valid") result) = true)
  /\ (forall response result,
         settled = FetchResolved response -> ok response = true ->
         parsed_body = Normal result -> result <> JNull ->
         js_truthy (get_property (lit "valid") result) = false ->
         validate settled parsed_body
         = if js_truthy (get_property (lit "error") result)
           then get_property (lit "error") result
           else Some (JStr (lit "Authentication failed")))
  /\ (forall e, validateAuth settled parsed_body = Throw e ->
      validate settled parsed_body
      = Some (JStr (lit "Failed to validate authentication"))).
Proof.
  split; [|split]; [split| |];
    [unfold handleSendMessage, validate, validateAuth, api_call ..| ].
  - destruct settled as [response|e]; simpl; [|discriminate].
    destruct (ok response) eqn:Hok; simpl; [|discriminate].
    destruct parsed_body as [result|e]; simpl; [|discriminate].
    destruct result as [| | | | |fields]; simpl; try discriminate.
    destruct (js_truthy (lookup (lit "valid") fields)) eqn:Hv; simpl.
    + intros _. exists response, (JObj fields). auto.
    + destruct (js_truthy (lookup (lit "error") fields)) eqn:He; simpl;
        [rewrite He|]; discriminate.
  - intros (response & result & -> & Hok & -> & Hv). rewrite Hok. simpl.
    destruct result as [| | | | |fields]; simpl in *; try discriminate.
    rewrite Hv. reflexivity.
  - intros response result -> Hok -> Hnull Hv. rewrite Hok. simpl.
    destruct result as [| | | | |fields]; simpl in *;
      try reflexivity; [congruence|].
    rewrite Hv. reflexivity.
  - intros e He. unfold validate. rewrite He. reflexivity.
Qed.

Lemma auth_gate_witness :
  ok response_200 = true
  /\ invalid_key_result <> JNull
  /\ js_truthy (get_property (lit "valid") invalid_key_result) = false
  /\ validate (FetchResolved response_200) (Normal invalid_key_result)
     = Some (JStr (lit "Invalid API key")).
Proof.
  split; [reflexivity|]. split; [discriminate|]. split; [reflexivity|].
  refine (proj1 (proj2 (auth_gate (FetchResolved response_200)
                          (Normal invalid_key_result) [])) response_200
                invalid_key_result eq_refl eq_refl eq_refl _ eq_refl).
  discriminate.
Defined.

(** ** Submitting the form *)

(** X16.  In every session the hook can reach, a submission of the form is
    never a call the hook would have to refuse.  While [isStreaming] is
    true, or when the input is blank, nothing happens and the input is
    kept.  Otherwise the input is cleared and, unless an authentication
    error is set — in which case the typed text is discarded unsent —
    [sendMessage] is called with the trimmed input, a non-empty text that
    trimming leaves unchanged. *)
Theorem interface_sends_only_when_idle {rt : Runtime}
        (config : AppConfig) (authError : jsvalue) (input : jsstring)
        (ss : Session) :
  reachable ss ->
  exists ss',
    fst (submit config authError input ss) = Some ss'
    /\ (isStreaming (state ss) = true \/ trim input = [] ->
        ss' = ss /\ snd (submit config authError input ss) = input)
    /\ (isStreaming (state ss) = false -> trim input <> [] ->
        snd (submit config authError input ss) = []
        /\ (js_truthy authError = true -> ss' = ss)
        /\ (js_truthy authError = false ->
            ss' = sendMessage config (trim input) (state ss)
            /\ trim (trim input) = trim input)).
Proof.
  intros Hr. apply coherent_reachable in Hr. unfold coherent in Hr.
  unfold submit, handleSubmit, handleSendMessage. simpl js_truthy.
  destruct (trim input) as [|c t] eqn:Et.
  - simpl. exists ss. split; [reflexivity|]. split; [auto|].
    intros _ H. congruence.
  - destruct (isStreaming (state ss)) eqn:Hs; simpl.
    + exists ss. split; [reflexivity|]. split; [auto|]. discriminate.
    + destruct ss as [s [k|]]; simpl in *; [destruct Hr; congruence|].
      destruct (js_truthy authError) eqn:Ha; simpl.
      * exists {| state := s; pending := None |}.
        split; [reflexivity|].
        split; [intros [H|H]; discriminate|].
        intros _ _. split; [reflexivity|]. split; [auto | discriminate].
      * eexists. split; [reflexivity|].
        split; [intros [H|H]; discriminate|].
        intros _ _. split; [reflexivity|]. split; [discriminate|].
        intros _. split; [reflexivity|].
        rewrite <- Et. apply trim_idempotent.
Qed.

Lemma interface_sends_only_when_idle_witness :
  exists ss' : @Session sample_runtime,
    fst (submit default_config (Some JNull) (lit "  hi ") initial_session)
    = Some ss'
    /\ ss' = sendMessage default_config (lit "hi") initial_state
    /\ snd (submit (rt := sample_runtime) default_config (Some JNull)
              (lit "  hi ") initial_session) = [].
Proof.
  destruct (@interface_sends_only_when_idle sample_runtime default_config
              (Some JNull) (lit "  hi ") initial_session)
    as (ss' & E & _ & H).
  { exists []. reflexivity. }
  destruct (H eq_refl) as (Hin & _ & Hsend); [discriminate|].
  destruct (Hsend eq_refl) as [Hs _].
  exists ss'. split; [exact E|]. split; [exact Hs | exact Hin].
Defined.

(** ** The open items of the log viewer *)

Lemma set_has_delete x id s :
  set_has x (set_delete id s)
  = if eqb_jsstring x id then false else set_has x s.
Proof.
  unfold set_has, set_delete. induction s as [|y s IH]; simpl.
  - destruct (eqb_jsstring x id); reflexivity.
  - destruct (eqb_jsstring id y) eqn:Ey; simpl.
    + apply eqb_jsstring_eq in Ey. subst y. rewrite IH.
      destruct (eqb_jsstring x id); reflexivity.
    + rewrite IH. destruct (eqb_jsstring x id) eqn:Ex; [|reflexivity].
      apply eqb_jsstring_eq in Ex. subst x. rewrite Ey. reflexivity.
Qed.

Lemma set_has_app x s t : set_has x (s ++ t) = set_has x s || set_has x t.
Proof. unfold set_has. apply existsb_app. Qed.

Lemma set_has_In x s : set_has x s = true <-> In x s.
Proof.
  unfold set_has. rewrite existsb_exists. split.
  - intros (y & Hy & E). apply eqb_jsstring_eq in E. subst; exact Hy.
  - intros H. exists x. split; [exact H | apply eqb_jsstring_refl].
Qed.

(** X17.  Toggling an item of the log viewer flips its membership in the
    set of open items and leaves every other item as it was, so toggling
    twice restores the set; the set never holds an identifier twice. *)
Theorem toggle_flips_one_item (id : jsstring) (prev : list jsstring) :
  set_has id (toggleItem id prev) = negb (set_has id prev)
  /\ (forall x, x <> id ->
                set_has x (toggleItem id prev) = set_has x prev)
  /\ (forall x, set_has x (toggleItem id (toggleItem id prev))
                = set_has x prev)
  /\ (NoDup prev -> NoDup (toggleItem id prev)).
Proof.
  assert (H1 : forall s x, set_has x (toggleItem id s)
                           = if eqb_jsstring x id then negb (set_has id s)
                             else set_has x s).
  { intros s x. unfold toggleItem, set_add.
    destruct (set_has id s) eqn:Hid; simpl.
    - rewrite set_has_delete. reflexivity.
    - rewrite set_has_app. simpl. unfold set_has at 2. simpl.
      destruct (eqb_jsstring x id) eqn:Ex.
      + apply eqb_jsstring_eq in Ex. subst x. rewrite Hid. reflexivity.
      + rewrite orb_false_r. reflexivity. }
  repeat split.
  - rewrite H1, eqb_jsstring_refl. reflexivity.
  - intros x Hx. rewrite H1. destruct (eqb_jsstring x id) eqn:Ex;
      [apply eqb_jsstring_eq in Ex; congruence | reflexivity].
  - intros x. rewrite !H1. destruct (eqb_jsstring x id) eqn:Ex;
      [|reflexivity].
    apply eqb_jsstring_eq in Ex. subst x.
    rewrite eqb_jsstring_refl. apply negb_involutive.
  - intros Hn. unfold toggleItem, set_add, set_delete.
    destruct (set_has id prev) eqn:Hid.
    + apply NoDup_filter, Hn.
    + apply NoDup_app; [exact Hn | repeat constructor; intros [] |].
      intros x Hx [<-|[]]. apply set_has_In in Hx. congruence.
Qed.

Lemma toggle_flips_one_item_witness :
  lit "m1" <> lit "m2"
  /\ NoDup [lit "m1"]
  /\ set_has (lit "m1") (toggleItem (lit "m2") [lit "m1"]) = true
  /\ NoDup (toggleItem (lit "m2") [lit "m1"]).
Proof.
  split; [discriminate|].
  assert (Hn : NoDup [lit "m1"]) by (repeat constructor; intros []).
  split; [exact Hn|].
  pose proof (toggle_flips_one_item (lit "m2") [lit "m1"])
    as (_ & Hother & _ & Hdup).
  split; [|exact (Hdup Hn)].
  rewrite (Hother (lit "m1")); [reflexivity | discriminate].
Defined.

(** * Properties of the payload view *)

Lemma json_induction (P : json -> Prop) :
  P JNull -> (forall b, P (JBool b)) -> (forall n, P (JNum n)) ->
  (forall s, P (JStr s)) ->
  (forall items, Forall P items -> P (JArr items)) ->
  (forall fields, Forall (fun entry => P (snd entry)) fields ->
                  P (JObj fields)) ->
  forall v, P v.
Proof.
  intros Hnull Hbool Hnum Hstr Harr Hobj. fix IH 1.
  intros [|b|n|s|items|fields];
    [exact Hnull | apply Hbool | apply Hnum | apply Hstr | | ].
  - apply Harr. induction items as [|x items IHl]; constructor;
      [apply IH | exact IHl].
  - apply Hobj. induction fields as [|[k x] fields IHl]; constructor;
      [apply IH | exact IHl].
Qed.

Lemma Forall_firstn_of {A} (P : A -> Prop) n (l : list A) :
  Forall P l -> Forall P (firstn n l).
Proof.
  revert n; induction l as [|x l IH]; intros [|n] H; simpl;
    try constructor; inversion H; subst; auto.
Qed.

Lemma Forall_filter_of {A} (P : A -> Prop) f (l : list A) :
  Forall P l -> Forall P (filter f l).
Proof.
  induction l as [|x l IH]; intros H; simpl; [constructor|].
  inversion H; subst. destruct (f x); [constructor|]; auto.
Qed.

(** The long array of the source: the first ten items, each sanitized. *)
Lemma sanitizePayload_long_array items depth :
  firstn 10 (map (fun item => sanitizePayload item (S depth)) items)
  = map (fun item => sanitizePayload item (S depth)) (firstn 10 items).
Proof. apply firstn_map. Qed.

Lemma height_array items n :
  Forall (fun item => height item <= n) items -> height (JArr items) <= S n.
Proof.
  induction 1 as [|x l Hx Hl IH]; [simpl; lia|].
  change (height (JArr (x :: l)))
    with (Nat.max (S (height x)) (height (JArr l))).
  lia.
Qed.

Lemma height_object (fields : list (jsstring * json)) n :
  Forall (fun entry => height (snd entry) <= n) fields ->
  height (JObj fields) <= S n.
Proof.
  induction 1 as [|x l Hx Hl IH]; [simpl; lia|].
  change (height (JObj (x :: l)))
    with (Nat.max (S (height (snd x))) (height (JObj l))).
  lia.
Qed.

Lemma sanitizePayload_unfold obj depth :
  sanitizePayload obj depth
  = if 5 <? depth then JStr (lit "[nested...]")
    else
      match obj with
      | JArr items =>
          if 10 <? List.length items then
            JArr (firstn 10 (map (fun item => sanitizePayload item (S depth))
                                 items)
                  ++ [JStr (lit "... and "
                            ++ decimal (N.of_nat (List.length items - 10))
                            ++ lit " more items")])
          else JArr (map (fun item => sanitizePayload item (S depth)) items)
      | JObj fields =>
          JObj (filter creates_property
                  (map (fun entry =>
                          (fst entry,
                           match snd entry with
                           | JStr text =>
                               if eqb_jsstring (fst entry) (lit "data")
                                  && (100 <? List.length text)
                               then truncated 50 text
                               else if 500 <? List.length text
                                    then truncated 200 text
                                    else sanitizePayload (snd entry) (S depth)
                           | _ => sanitizePayload (snd entry) (S depth)
                           end)) fields))
      | _ => obj
      end.
Proof.
  destruct obj as [| | | |items|fields]; try reflexivity.
  simpl. destruct (5 <? depth); [reflexivity|]. do 2 f_equal.
  apply map_ext. intros [key value]. destruct value; reflexivity.
Qed.

(** X18.  Whatever the payload, its sanitized copy holds no value more than
    six levels down: below that, '[nested...]' stands for what was there.
    In general the copy made at a depth reaches at most level six counted
    from the root. *)
Theorem sanitizePayload_depth_bound (obj : json) (depth : nat) :
  height (sanitizePayload obj depth) <= 6 - depth.
Proof.
  revert depth. induction obj as [|b|n|s|items IH|fields IH]
    using json_induction; intros depth; rewrite sanitizePayload_unfold;
    destruct (Nat.ltb_spec 5 depth) as [Hd|Hd]; try (simpl; lia).
  - assert (Hitems : Forall (fun item => height item <= 5 - depth)
                       (map (fun item => sanitizePayload item (S depth))
                            items)).
    { apply Forall_map. eapply Forall_impl; [|exact IH].
      intros item H. specialize (H (S depth)). lia. }
    replace (6 - depth) with (S (5 - depth)) by lia.
    destruct (10 <? List.length items); apply height_array;
      [|exact Hitems].
    apply Forall_app. split; [apply Forall_firstn_of, Hitems|].
    repeat constructor. simpl height. lia.
  - replace (6 - depth) with (S (5 - depth)) by lia.
    apply height_object, Forall_filter_of, Forall_map.
    eapply Forall_impl; [|exact IH].
    intros [key value] H. cbn [fst snd] in *.
    assert (Hv : height (sanitizePayload value (S depth)) <= 5 - depth).
    { specialize (H (S depth)). lia. }
    destruct value as [| | |text| |]; try exact Hv.
    destruct (eqb_jsstring key (lit "data") && (100 <? List.length text));
      [simpl height; lia|].
    destruct (500 <? List.length text); [simpl height; lia | exact Hv].
Qed.

Lemma forallb_of_Forall {A} (f : A -> bool) (l : list A) :
  Forall (fun x => f x = true) l -> forallb f l = true.
Proof. induction 1 as [|x l Hx Hl IH]; simpl; [reflexivity|]. rewrite Hx; exact IH. Qed.

Lemma Forall_of_forallb {A} (f : A -> bool) (l : list A) :
  forallb f l = true -> Forall (fun x => f x = true) l.
Proof.
  induction l as [|x l IH]; simpl; [constructor|].
  intros H. apply andb_true_iff in H. destruct H as [Hx Hl].
  constructor; auto.
Qed.

(** X19.  Whatever the payload, no array of its sanitized copy has more
    than eleven items: the first ten of a longer array and the note that
    counts the rest. *)
Theorem sanitizePayload_array_bound (obj : json) (depth : nat) :
  arrays_within 11 (sanitizePayload obj depth) = true.
Proof.
  revert depth. induction obj as [|b|n|s|items IH|fields IH]
    using json_induction; intros depth; rewrite sanitizePayload_unfold;
    destruct (5 <? depth); try reflexivity.
  - assert (Hitems : Forall (fun item => arrays_within 11 item = true)
                       (map (fun item => sanitizePayload item (S depth))
                            items)).
    { apply Forall_map. eapply Forall_impl; [|exact IH].
      intros item H. apply H. }
    destruct (Nat.ltb_spec 10 (List.length items)) as [Hl|Hl];
      cbn [arrays_within]; apply andb_true_iff; split.
    + apply Nat.leb_le.
      rewrite length_app, length_firstn, length_map. cbn [List.length]. lia.
    + apply forallb_of_Forall, Forall_app. split;
        [apply Forall_firstn_of, Hitems | repeat constructor].
    + apply Nat.leb_le. rewrite length_map. lia.
    + apply forallb_of_Forall, Hitems.
  - cbn [arrays_within]. apply forallb_of_Forall, Forall_filter_of, Forall_map.
    eapply Forall_impl; [|exact IH].
    intros [key value] H. cbn [fst snd] in *.
    destruct value as [| | |text| |]; try apply H.
    destruct (eqb_jsstring key (lit "data") && (100 <? List.length text));
      [reflexivity|].
    destruct (500 <? List.length text); [reflexivity | apply H].
Qed.

Lemma height_item_le item items :
  In item items -> S (height item) <= height (JArr items).
Proof.
  induction items as [|x l IH]; [intros []|intros [->|Hin]].
  - change (height (JArr (item :: l)))
      with (Nat.max (S (height item)) (height (JArr l))). lia.
  - specialize (IH Hin).
    change (height (JArr (x :: l)))
      with (Nat.max (S (height x)) (height (JArr l))). lia.
Qed.

Lemma height_field_le (entry : jsstring * json) fields :
  In entry fields -> S (height (snd entry)) <= height (JObj fields).
Proof.
  induction fields as [|x l IH]; [intros []|intros [->|Hin]].
  - change (height (JObj (entry :: l)))
      with (Nat.max (S (height (snd entry))) (height (JObj l))). lia.
  - specialize (IH Hin).
    change (height (JObj (x :: l)))
      with (Nat.max (S (height (snd x))) (height (JObj l))). lia.
Qed.

Lemma filter_all {A} (f : A -> bool) (l : list A) :
  Forall (fun x => f x = true) l -> filter f l = l.
Proof.
  induction 1 as [|x l Hx Hl IH]; simpl; [reflexivity|].
  rewrite Hx, IH. reflexivity.
Qed.

Lemma map_fixed {A} (f : A -> A) (l : list A) :
  (forall x, In x l -> f x = x) -> map f l = l.
Proof.
  induction l as [|x l IH]; intros H; simpl; [reflexivity|].
  rewrite H by (left; reflexivity). rewrite IH; [reflexivity|].
  intros y Hy. apply H. right; exact Hy.
Qed.

(** X20.  A payload within the limits is shown as it is: when no value sits
    more than five levels down, no array has more than ten items, no string
    that is the value of a property has more than a hundred code units and
    no property is named [__proto__], the sanitized copy equals the
    payload. *)
Theorem sanitizePayload_within_limits (obj : json) (depth : nat) :
  height obj + depth <= 5 ->
  arrays_within 10 obj = true ->
  strings_within 100 obj = true ->
  no_proto obj = true ->
  sanitizePayload obj depth = obj.
Proof.
  revert depth. induction obj as [|b|n|s|items IH|fields IH]
    using json_induction; intros depth Hh Ha Hs Hp;
    rewrite sanitizePayload_unfold;
    destruct (Nat.ltb_spec 5 depth) as [Hd|Hd]; try lia; try reflexivity.
  - cbn [arrays_within strings_within no_proto] in Ha, Hs, Hp.
    apply andb_true_iff in Ha. destruct Ha as [Hlen Ha].
    apply Nat.leb_le in Hlen.
    destruct (Nat.ltb_spec 10 (List.length items)) as [Hl|Hl]; [lia|].
    f_equal. apply map_fixed. intros item Hin.
    rewrite Forall_forall in IH. apply (IH item Hin).
    + pose proof (height_item_le _ _ Hin). lia.
    + exact (proj1 (forallb_forall _ _) Ha item Hin).
    + exact (proj1 (forallb_forall _ _) Hs item Hin).
    + exact (proj1 (forallb_forall _ _) Hp item Hin).
  - cbn [arrays_within strings_within no_proto] in Ha, Hs, Hp.
    f_equal.
    assert (Hmap : map (fun entry : jsstring * json =>
                     (fst entry,
                      match snd entry with
                      | JStr text =>
                          if eqb_jsstring (fst entry) (lit "data")
                             && (100 <? List.length text)
                          then truncated 50 text
                          else if 500 <? List.length text
                               then truncated 200 text
                               else sanitizePayload (snd entry) (S depth)
                      | _ => sanitizePayload (snd entry) (S depth)
                      end)) fields = fields).
    { apply map_fixed. intros [key value] Hin. cbn [fst snd].
      rewrite Forall_forall in IH. specialize (IH _ Hin). cbn [snd] in IH.
      pose proof (height_field_le _ _ Hin) as Hle. cbn [snd] in Hle.
      pose proof (proj1 (forallb_forall _ _) Ha _ Hin) as Ha'.
      pose proof (proj1 (forallb_forall _ _) Hs _ Hin) as Hs'.
      pose proof (proj1 (forallb_forall _ _) Hp _ Hin) as Hp'.
      cbn [snd] in Ha', Hs', Hp'.
      apply andb_true_iff in Hp'. destruct Hp' as [_ Hp'].
      f_equal.
      destruct value as [| | |text| |];
        try (apply IH; [lia | assumption ..]).
      apply Nat.leb_le in Hs'.
      destruct (Nat.ltb_spec 100 (List.length text)); [lia|].
      rewrite andb_false_r.
      destruct (Nat.ltb_spec 500 (List.length text)); [lia|].
      apply IH; [lia | reflexivity ..]. }
    rewrite Hmap. apply filter_all.
    apply Forall_forall. intros entry Hin.
    pose proof (proj1 (forallb_forall _ _) Hp _ Hin) as Hp'.
    apply andb_true_iff in Hp'. apply Hp'.
Qed.

Lemma sanitizePayload_within_limits_witness :
  height done_event + 0 <= 5
  /\ arrays_within 10 done_event = true
  /\ strings_within 100 done_event = true
  /\ no_proto done_event = true
  /\ sanitizePayload done_event 0 = done_event.
Proof.
  assert (Hh : height done_event + 0 <= 5) by (vm_compute; lia).
  split; [exact Hh|]. split; [reflexivity|]. split; [reflexivity|].
  split; [reflexivity|].
  apply (@sanitizePayload_within_limits done_event 0 Hh); reflexivity.
Defined.

(** A long array keeps its first ten items and a note; a long base64
    string under the key [data] keeps its first fifty code units and its
    length. *)
Example sanitizePayload_large_payload :
  sanitizePayload large_payload 0
  = JObj [(lit "messages",
           JArr (repeat (JStr (lit "turn")) 10
                 ++ [JStr (lit "... and 2 more items")]));
          (lit "data",
           JStr (repeat 65%N 50 ++ lit "... [120 chars]"))].
Proof. reflexivity. Qed.

(** * Properties of the settings *)



(** * Properties of the chat view *)




(** * Properties of the settings as a whole *)

Lemma or_number_truthy x d :
  js_truthy (Some (JNum d)) = true ->
  js_truthy (Some (JNum (or_number x d))) = true.
Proof.
  intros Hd. unfold or_number.
  destruct (js_truthy (Some (JNum x))) eqn:Hx; assumption.
Qed.

Lemma truthy_not_nan x :
  js_truthy (Some (JNum x)) = true -> PrimFloat.is_nan x = false.
Proof.
  simpl. intros H. apply negb_true_iff, orb_false_iff in H. apply H.
Qed.

Lemma or_number_not_nan x d :
  PrimFloat.is_nan d = false -> PrimFloat.is_nan (or_number x d) = false.
Proof.
  intros Hd. unfold or_number.
  destruct (js_truthy (Some (JNum x))) eqn:Hx;
    [apply truthy_not_nan, Hx | exact Hd].
Qed.

(** The numbers of the settings that every handler keeps sound. *)
Lemma settings_step_numbers serverConfig config a :
  js_truthy (Some (JNum (maxTokens config))) = true ->
  PrimFloat.is_nan (onlyNMostRecentImages config) = false ->
  js_truthy (Some (JNum (maxTokens (settings_step serverConfig config a))))
  = true
  /\ PrimFloat.is_nan
       (onlyNMostRecentImages (settings_step serverConfig config a))
     = false.
Proof.
  intros Hm Hn.
  destruct a; try (split; assumption);
    try (split; [exact Hm | apply or_number_not_nan; reflexivity]);
    try (split; [apply or_number_truthy; reflexivity | exact Hn]).
  - split; [|exact Hn]. unfold settings_step, handleModelChange,
      handleConfigChange, or_else; cbn [maxTokens ch_maxTokens].
    destruct serverConfig as [sc|]; [|exact Hm].
    destruct (assoc value (model_configs sc));
      [apply or_number_truthy, Hm | exact Hm].
  - destruct serverConfig as [sc|]; split; assumption.
  - split; reflexivity.
Qed.

(** X23.  Whatever is done to the settings — provider, model, number
    inputs with any text, switches, the slider, the loaded server
    configuration, a reset — [maxTokens] is never [0] nor [NaN] and
    [onlyNMostRecentImages] is never [NaN]: a number input that [parseInt]
    cannot read, or that reads as [0], falls back to 16384 and to 0.  So
    the [max_tokens] of a request body is never zero, and neither number is
    [NaN] there. *)
Theorem settings_numbers_stay_sound
        (actions : list (option ConfigResponse * SettingsAction)) :
  js_truthy (Some (JNum (maxTokens (settings_after actions)))) = true
  /\ PrimFloat.is_nan (onlyNMostRecentImages (settings_after actions)) = false
  /\ (forall history,
         PrimFloat.is_nan
           (rq_max_tokens (chat_request (settings_after actions) history))
         = false
         /\ PrimFloat.is_zero
              (rq_max_tokens (chat_request (settings_after actions) history))
            = false
         /\ PrimFloat.is_nan
              (rq_only_n_most_recent_images
                 (chat_request (settings_after actions) history))
            = false).
Proof.
  assert (H : forall actions config,
             js_truthy (Some (JNum (maxTokens config))) = true ->
             PrimFloat.is_nan (onlyNMostRecentImages config) = false ->
             let final :=
               fold_left (fun config step =>
                            settings_step (fst step) config (snd step))
                         actions config in
             js_truthy (Some (JNum (maxTokens final))) = true
             /\ PrimFloat.is_nan (onlyNMostRecentImages final) = false).
  { clear actions. induction actions as [|[sc a] rest IH];
      intros config Hm Hn; simpl; [split; assumption|].
    destruct (settings_step_numbers sc config a Hm Hn) as [Hm' Hn'].
    apply IH; assumption. }
  destruct (H actions DEFAULT_CONFIG eq_refl eq_refl) as [Hm Hn].
  fold (settings_after actions) in Hm, Hn.
  split; [exact Hm|]. split; [exact Hn|]. intros history.
  cbn [chat_request rq_max_tokens rq_only_n_most_recent_images].
  simpl in Hm. apply negb_true_iff, orb_false_iff in Hm.
  destruct Hm as [Hz Hnan]. repeat split; assumption.
Qed.

(** X24.  Choosing a model sets the model and leaves the provider, the API
    key and the thinking settings as they were; a tool version that was not
    empty is not empty afterwards.  The thinking switch is not revisited:
    when thinking was enabled it stays enabled even if the chosen model has
    no thinking, and the requests still carry the [thinking_budget]. *)
Theorem model_change_keeps_thinking
        (serverConfig : option ConfigResponse) (config : AppConfig)
        (value : jsstring) :
  let config' := handleModelChange serverConfig config value in
  model config' = value
  /\ provider config' = provider config
  /\ apiKey config' = apiKey config
  /\ thinkingEnabled config' = thinkingEnabled config
  /\ thinkingBudget config' = thinkingBudget config
  /\ (toolVersion config <> [] -> toolVersion config' <> [])
  /\ (forall history,
         rq_thinking_budget (chat_request config' history)
         = rq_thinking_budget (chat_request config history))
  /\ (forall sc mc history,
         serverConfig = Some sc ->
         assoc value (model_configs sc) = Some mc ->
         has_thinking mc = false -> thinkingEnabled config = true ->
         rq_thinking_budget (chat_request config' history)
         = Some (thinkingBudget config)).
Proof.
  unfold handleModelChange, handleConfigChange. simpl. repeat split.
  - intros Ht. unfold or_string.
    destruct (option_map tool_version _) as [[|c t]|];
      [exact Ht | discriminate | exact Ht].
  - intros sc mc history _ _ _ ->. reflexivity.
Qed.

Lemma model_change_keeps_thinking_witness :
  assoc (lit "claude-3-haiku") (model_configs plain_server)
  = Some {| tool_version := lit "computer_use_20241022";
            max_output_tokens := 4096%float;
            default_output_tokens := 4096%float;
            has_thinking := false |}
  /\ rq_thinking_budget
       (chat_request
          (handleModelChange (Some plain_server)
             (settings_step None DEFAULT_CONFIG (ThinkingSwitch true))
             (lit "claude-3-haiku")) [])
     = Some 8192%float.
Proof.
  split; [reflexivity|].
  exact (proj2 (proj2 (proj2 (proj2 (proj2 (proj2 (proj2
           (model_change_keeps_thinking (Some plain_server)
              (settings_step None DEFAULT_CONFIG (ThinkingSwitch true))
              (lit "claude-3-haiku"))))))))
           plain_server _ [] eq_refl eq_refl eq_refl eq_refl).
Defined.
